(** * ulsan_proto: location authorisation hook and tourist-spot list

    A shallow embedding of [useLocationAuth] (the location hook) and of
    [SpotList] (the list component).

    Numbers.  A JavaScript [number] that carries a latitude, a longitude or a
    distance is read as a real number: [Math.sin], [Math.cos], [Math.sqrt],
    [Math.atan2] and [Math.PI] are the functions and the constant of
    analysis.  Rounding, infinities and NaN are outside this reading. *)

From Stdlib Require Import Reals Lra Lia ZArith Bool List String.
Import ListNotations.

(** ** Great-circle geometry *)

Module Geo.

Local Open Scope R_scope.

(** [interface Coordinates { lat: number; lng: number }] *)
Record Coordinates : Type := mkCoordinates { lat : R; lng : R }.

(** [Math.atan2(y, x)]: the angle of the point [(x, y)], in [(-PI, PI]]. *)
Definition atan2 (y x : R) : R :=
  if Rlt_dec 0 x then atan (y / x)
  else if Rlt_dec x 0 then
    if Rle_dec 0 y then atan (y / x) + PI else atan (y / x) - PI
  else (* x = 0 *)
    if Rlt_dec 0 y then PI / 2
    else if Rlt_dec y 0 then - (PI / 2)
    else 0.

(** [const R = 6371e3] *)
Definition earthRadius : R := 6371e3.

(** The quantity [a] of [calculateDistance], spelled as in the source. *)
Definition haversine_a (coord1 coord2 : Coordinates) : R :=
  let phi1 := (lat coord1 * PI) / 180 in
  let phi2 := (lat coord2 * PI) / 180 in
  let dphi := ((lat coord2 - lat coord1) * PI) / 180 in
  let dlambda := ((lng coord2 - lng coord1) * PI) / 180 in
  sin (dphi / 2) * sin (dphi / 2)
  + cos phi1 * cos phi2 * sin (dlambda / 2) * sin (dlambda / 2).

(** [calculateDistance(coord1, coord2)] *)
Definition calculateDistance (coord1 coord2 : Coordinates) : R :=
  let a := haversine_a coord1 coord2 in
  let c := 2 * atan2 (sqrt a) (sqrt (1 - a)) in
  earthRadius * c.

(** *** The Haversine formula as the specification words it

    Angles are first converted from degrees to radians; the differences are
    differences of the converted angles. *)

Definition toRadians (deg : R) : R := deg * (PI / 180).

Definition haversine_spec (lat1 lng1 lat2 lng2 : R) : R :=
  let phi1 := toRadians lat1 in
  let phi2 := toRadians lat2 in
  let dphi := phi2 - phi1 in
  let dlambda := toRadians lng2 - toRadians lng1 in
  let a := (sin (dphi / 2))² + cos phi1 * cos phi2 * (sin (dlambda / 2))² in
  let c := 2 * atan2 (sqrt a) (sqrt (1 - a)) in
  6371000 * c.

(** The central angle between two points of the sphere, by the spherical law
    of cosines: the great-circle distance is the radius times this angle. *)
Definition centralAngle (lat1 lng1 lat2 lng2 : R) : R :=
  let phi1 := toRadians lat1 in
  let phi2 := toRadians lat2 in
  let dlambda := toRadians lng2 - toRadians lng1 in
  acos (sin phi1 * sin phi2 + cos phi1 * cos phi2 * cos dlambda).

End Geo.

(** ** The hook [useLocationAuth] *)

Module Hook.

Import Geo.
Local Open Scope string_scope.
Local Open Scope list_scope.

(** [UseLocationAuthProps]; [allowedRadius] is optional. *)
Record UseLocationAuthProps : Type := mkProps {
  targetLocation : Coordinates;
  allowedRadius : option R
}.

(** The default of the destructuring pattern [allowedRadius = 300]. *)
Definition radiusOf (props : UseLocationAuthProps) : R :=
  match allowedRadius props with
  | Some r => r
  | None => 300%R
  end.

(** The dependency array [[distance, allowedRadius]] of the memoised
    [isWithinRange], and the cell React keeps for it between renders. *)
Definition Deps : Type := (option R * R)%type.
Definition MemoCell : Type := option (Deps * bool).

(** The five [useState] cells and the [useMemo] cell. *)
Record HookState : Type := mkHookState {
  currentLocation : option Coordinates;
  locationError : option string;
  isLocationEnabled : bool;
  isLoading : bool;
  isKakaoLoaded : bool;
  withinRangeMemo : MemoCell
}.

(** The state of a freshly mounted hook: the arguments of the [useState]
    calls, and no memoised value yet. *)
Definition mounted : HookState :=
  mkHookState None None false false false None.

Definition setCurrentLocation (v : option Coordinates) (st : HookState) :=
  mkHookState v (locationError st) (isLocationEnabled st) (isLoading st)
    (isKakaoLoaded st) (withinRangeMemo st).
Definition setLocationError (v : option string) (st : HookState) :=
  mkHookState (currentLocation st) v (isLocationEnabled st) (isLoading st)
    (isKakaoLoaded st) (withinRangeMemo st).
Definition setIsLocationEnabled (v : bool) (st : HookState) :=
  mkHookState (currentLocation st) (locationError st) v (isLoading st)
    (isKakaoLoaded st) (withinRangeMemo st).
Definition setIsLoading (v : bool) (st : HookState) :=
  mkHookState (currentLocation st) (locationError st) (isLocationEnabled st) v
    (isKakaoLoaded st) (withinRangeMemo st).
Definition setIsKakaoLoaded (v : bool) (st : HookState) :=
  mkHookState (currentLocation st) (locationError st) (isLocationEnabled st)
    (isLoading st) v (withinRangeMemo st).
Definition setWithinRangeMemo (v : MemoCell) (st : HookState) :=
  mkHookState (currentLocation st) (locationError st) (isLocationEnabled st)
    (isLoading st) (isKakaoLoaded st) v.

(** *** Rendering: [distance] and the memoised [isWithinRange] *)

(** [Object.is] on the two dependencies. *)
Definition sameNumber (x y : R) : bool :=
  if Req_dec_T x y then true else false.

Definition sameDeps (d1 d2 : Deps) : bool :=
  match fst d1, fst d2 with
  | None, None => sameNumber (snd d1) (snd d2)
  | Some x, Some y => sameNumber x y && sameNumber (snd d1) (snd d2)
  | _, _ => false
  end.

(** [useMemo(compute, deps)]: the value kept in the cell is returned as long
    as the dependencies are the ones it was computed for. *)
Definition useMemo (cell : MemoCell) (compute : unit -> bool) (deps : Deps)
  : bool * MemoCell :=
  match cell with
  | Some (deps0, v) =>
      if sameDeps deps0 deps then (v, cell)
      else let v' := compute tt in (v', Some (deps, v'))
  | None => let v := compute tt in (v, Some (deps, v))
  end.

(** [distance <= allowedRadius] *)
Definition leNumber (x y : R) : bool :=
  if Rle_dec x y then true else false.

(** The function handed to [useMemo].  [bypass] is what
    [testModeManager.isBypassLocationCheck()] answers; the manager lives in
    [data/testData], a module that is not embedded here, so its answer is
    a parameter of every function that asks for it. *)
Definition withinRangeBody (bypass : bool) (distance : option R)
  (radius : R) (_ : unit) : bool :=
  if bypass then true
  else match distance with
       | Some d => leNumber d radius
       | None => false
       end.

(** The fields of [LocationAuthResult] that are data. *)
Record LocationAuthResult : Type := mkResult {
  r_isLocationEnabled : bool;
  r_currentLocation : option Coordinates;
  r_locationError : option string;
  r_isWithinRange : bool;
  r_distance : option R;
  r_isLoading : bool
}.

(** [const distance = currentLocation ? calculateDistance(...) : null] *)
Definition distanceOf (props : UseLocationAuthProps) (st : HookState)
  : option R :=
  match currentLocation st with
  | Some cur => Some (calculateDistance cur (targetLocation props))
  | None => None
  end.

(** One call of the hook body, that is, one render: the returned object and
    the state with the memo cell as React leaves it.  The callbacks of the
    returned object are the transitions defined further down. *)
Definition useLocationAuth (bypass : bool) (props : UseLocationAuthProps)
  (st : HookState) : LocationAuthResult * HookState :=
  let distance := distanceOf props st in
  let radius := radiusOf props in
  let '(within, cell) :=
    useMemo (withinRangeMemo st) (withinRangeBody bypass distance radius)
      (distance, radius) in
  (mkResult (isLocationEnabled st) (currentLocation st) (locationError st)
     within distance (isLoading st),
   setWithinRangeMemo cell st).

(** *** What the hook asks of the browser *)

(** The options object of a geolocation request. *)
Record PositionOptions : Type := mkOptions {
  enableHighAccuracy : bool;
  timeout : Z;
  maximumAge : Z
}.

(** The codes of a [GeolocationPositionError]. *)
Definition PERMISSION_DENIED : Z := 1.
Definition POSITION_UNAVAILABLE : Z := 2.
Definition TIMEOUT : Z := 3.

(** What a geolocation request comes back with: the success callback with a
    position, or the error callback with a code. *)
Inductive GeoAnswer : Type :=
| Position (latitude longitude accuracy : R)
| PositionError (code : Z).

(** What becomes of the SDK script element: [onload] (and whether
    [window.kakao.maps] is then defined) or [onerror]. *)
Inductive ScriptAnswer : Type :=
| ScriptLoaded (kakaoDefined : bool)
| ScriptError.

(** The browser as the hook meets it.  A value of this type answers every
    request put to it; a callback that never comes is not represented. *)
Record Browser : Type := mkBrowser {
  (** [navigator.geolocation]; a request is answered according to its
      options *)
  geolocation : option (PositionOptions -> GeoAnswer);
  (** [window.kakao && window.kakao.maps] when [loadKakaoMaps] starts *)
  kakaoMaps : bool;
  sdkScript : ScriptAnswer;
  (** [window.kakao?.maps?.services] when a position arrives *)
  kakaoServices : bool
}.

(** Calls that leave the hook.  Console output is not recorded. *)
Inductive Call : Type :=
| GetCurrentPosition (options : PositionOptions)
| WatchPosition (options : PositionOptions)
| Coord2Address (lng lat : R)
| AppendSdkScript
| KakaoMapsLoad.

(** A thrown or rejected value, as far as [error instanceof Error] and
    [error.message] can tell. *)
Inductive Thrown : Type :=
| ErrorObject (message : string)
| OtherValue.

Inductive Settled (A : Type) : Type :=
| Fulfilled (a : A)
| Rejected (e : Thrown).
Arguments Fulfilled {A} a.
Arguments Rejected {A} e.

(** Hook code: it reads and sets the state cells, calls out, and settles. *)
Definition M (A : Type) : Type :=
  HookState -> Settled A * HookState * list Call.

Definition ret {A : Type} (a : A) : M A :=
  fun st => (Fulfilled a, st, []).

Definition bind {A B : Type} (m : M A) (k : A -> M B) : M B :=
  fun st =>
    match m st with
    | (Fulfilled a, st1, cs1) =>
        let '(r, st2, cs2) := k a st1 in (r, st2, cs1 ++ cs2)
    | (Rejected e, st1, cs1) => (Rejected e, st1, cs1)
    end.

Definition reject {A : Type} (e : Thrown) : M A :=
  fun st => (Rejected e, st, []).

Definition update (f : HookState -> HookState) : M unit :=
  fun st => (Fulfilled tt, f st, []).

Definition call (c : Call) : M unit :=
  fun st => (Fulfilled tt, st, [c]).

(** [try { body } catch (error) { handler } finally { final }] *)
Definition tryCatchFinally (body : M unit) (handler : Thrown -> M unit)
  (final : M unit) : M unit :=
  fun st =>
    let '(r1, st1, cs1) :=
      match body st with
      | (Fulfilled _, st1, cs1) => (Fulfilled tt, st1, cs1)
      | (Rejected e, st1, cs1) =>
          let '(r, st2, cs2) := handler e st1 in (r, st2, cs1 ++ cs2)
      end in
    let '(r2, st2, cs2) := final st1 in
    match r1, r2 with
    | _, Rejected e => (Rejected e, st2, cs1 ++ cs2)
    | Rejected e, _ => (Rejected e, st2, cs1 ++ cs2)
    | Fulfilled _, Fulfilled _ => (Fulfilled tt, st2, cs1 ++ cs2)
    end.

Notation "x <- m ;; k" := (bind m (fun x => k))
  (at level 61, m at next level, right associativity).
Notation "m ;; k" := (bind m (fun _ => k))
  (at level 61, right associativity).

Definition stateAfter {A : Type} (r : Settled A * HookState * list Call)
  : HookState := snd (fst r).
Definition settledAs {A : Type} (r : Settled A * HookState * list Call)
  : Settled A := fst (fst r).
Definition callsOf {A : Type} (r : Settled A * HookState * list Call)
  : list Call := snd r.

(** *** [loadKakaoMaps] *)

Definition msgKakaoApi : string := "카카오맵 API 로드 실패".
Definition msgKakaoScript : string := "카카오맵 스크립트 로드 실패".

Definition loadKakaoMaps (br : Browser) : M unit :=
  if kakaoMaps br then update (setIsKakaoLoaded true)
  else
    call AppendSdkScript ;;
    match sdkScript br with
    | ScriptLoaded true =>
        call KakaoMapsLoad ;; update (setIsKakaoLoaded true)
    | ScriptLoaded false => reject (ErrorObject msgKakaoApi)
    | ScriptError => reject (ErrorObject msgKakaoScript)
    end.

(** *** [getCurrentLocationWithKakao] *)

Definition msgUnsupported : string :=
  "이 브라우저는 위치 서비스를 지원하지 않습니다.".
Definition msgPermissionDenied : string :=
  "위치 정보 접근이 거부되었습니다. 브라우저 설정에서 위치 권한을 허용해주세요.".
Definition msgPositionUnavailable : string :=
  "위치 정보를 사용할 수 없습니다. GPS가 켜져있는지 확인해주세요.".
Definition msgTimeout : string := "위치 정보 요청 시간이 초과되었습니다.".
Definition msgGeneric : string := "위치 정보를 가져오는 중 오류가 발생했습니다.".

(** The [switch (error.code)] of the error callback. *)
Definition positionErrorMessage (code : Z) : string :=
  if (code =? PERMISSION_DENIED)%Z then msgPermissionDenied
  else if (code =? POSITION_UNAVAILABLE)%Z then msgPositionUnavailable
  else if (code =? TIMEOUT)%Z then msgTimeout
  else msgGeneric.

Definition requestOptions : PositionOptions := mkOptions true 15000 60000.

(** The optional address check: it only logs, and what it throws is caught. *)
Definition verifyWithKakao (kakaoLoaded : bool) (br : Browser)
  (coords : Coordinates) : M unit :=
  if kakaoLoaded && kakaoServices br
  then call (Coord2Address (lng coords) (lat coords))
  else ret tt.

(** [kakaoLoaded] is the [isKakaoLoaded] the callback closed over. *)
Definition getCurrentLocationWithKakao (kakaoLoaded : bool) (br : Browser)
  : M Coordinates :=
  match geolocation br with
  | None => reject (ErrorObject msgUnsupported)
  | Some geo =>
      call (GetCurrentPosition requestOptions) ;;
      match geo requestOptions with
      | Position latitude longitude _ =>
          let coords := mkCoordinates latitude longitude in
          verifyWithKakao kakaoLoaded br coords ;;
          ret coords
      | PositionError code =>
          reject (ErrorObject (positionErrorMessage code))
      end
  end.

(** *** [getCurrentLocation] *)

(** [{ lat: 35.5384, lng: 129.3114 }], the coordinates of the bypass. *)
Definition bypassCoordinates : Coordinates :=
  mkCoordinates 35.5384%R 129.3114%R.

Definition msgFallback : string := "위치 정보를 가져오는데 실패했습니다.".

(** [error instanceof Error ? error.message : ...] *)
Definition messageOf (error : Thrown) : string :=
  match error with
  | ErrorObject message => message
  | OtherValue => msgFallback
  end.

(** The branch taken when the bypass is on. *)
Definition bypassRequest : M unit :=
  update (setCurrentLocation (Some bypassCoordinates)) ;;
  update (setIsLocationEnabled true).

(** The part that runs before the first [await]: the request is pending. *)
Definition beginRequest : M unit :=
  update (setIsLoading true) ;;
  update (setLocationError None).

(** The [try] / [catch] / [finally] that follows. *)
Definition settleRequest (kakaoLoaded : bool) (br : Browser) : M unit :=
  tryCatchFinally
    ((if negb kakaoLoaded then loadKakaoMaps br else ret tt) ;;
     coords <- getCurrentLocationWithKakao kakaoLoaded br ;;
     update (setCurrentLocation (Some coords)) ;;
     update (setIsLocationEnabled true) ;;
     update (setLocationError None))
    (fun error =>
       update (setLocationError (Some (messageOf error))) ;;
       update (setIsLocationEnabled false))
    (update (setIsLoading false)).

Definition getCurrentLocation (bypass kakaoLoaded : bool) (br : Browser)
  : M unit :=
  if bypass then bypassRequest
  else beginRequest ;; settleRequest kakaoLoaded br.

(** *** [watchLocation] *)

Definition watchOptions : PositionOptions := mkOptions true 10000 30000.

(** [watchLocation]: nothing without [navigator.geolocation]; otherwise the
    watch is started and the function that clears it is returned ([true]). *)
Definition watchLocation (br : Browser) : M bool :=
  match geolocation br with
  | None => ret false
  | Some _ => call (WatchPosition watchOptions) ;; ret true
  end.

(** The success callback of [watchPosition]. *)
Definition onWatchedPosition (kakaoLoaded : bool) (br : Browser)
  (latitude longitude : R) : M unit :=
  let coords := mkCoordinates latitude longitude in
  verifyWithKakao kakaoLoaded br coords ;;
  update (setCurrentLocation (Some coords)).

(** *** The life of a mounted hook

    What can happen to the state cells of a mounted hook: a call of the hook body, the
    loading of the SDK, the phases of [getCurrentLocation], a watched
    position.  The memoised function reads the manager, while its cell is
    keyed on distance and radius alone, so a cell holds what the manager
    answered when it was filled.  The relation describes a hook during
    whose life [testModeManager.isBypassLocationCheck()] keeps answering
    [bypass]. *)
Inductive step (bypass : bool) : HookState -> HookState -> Prop :=
| step_render (props : UseLocationAuthProps) (st : HookState) :
    step bypass st (snd (useLocationAuth bypass props st))
| step_loadKakaoMaps (br : Browser) (st : HookState) :
    step bypass st (stateAfter (loadKakaoMaps br st))
| step_bypassRequest (st : HookState) :
    bypass = true ->
    step bypass st (stateAfter (bypassRequest st))
| step_beginRequest (st : HookState) :
    bypass = false ->
    step bypass st (stateAfter (beginRequest st))
| step_settleRequest (kakaoLoaded : bool) (br : Browser) (st : HookState) :
    bypass = false ->
    step bypass st (stateAfter (settleRequest kakaoLoaded br st))
| step_watchedPosition (kakaoLoaded : bool) (br : Browser)
    (latitude longitude : R) (st : HookState) :
    step bypass st
      (stateAfter (onWatchedPosition kakaoLoaded br latitude longitude st)).

Inductive reachable (bypass : bool) : HookState -> Prop :=
| reachable_mounted : reachable bypass mounted
| reachable_step (st st' : HookState) :
    reachable bypass st -> step bypass st st' -> reachable bypass st'.

(** The states of a mounted hook whatever the manager answers: each step may
    meet another answer. *)
Inductive live : HookState -> Prop :=
| live_mounted : live mounted
| live_step (bypass : bool) (st st' : HookState) :
    live st -> step bypass st st' -> live st'.

(** *** The mount effect *)

(** [initializeLocation], run once after the first render.  It awaits
    [loadKakaoMaps]; then [getCurrentLocation] runs, from a timer when the
    SDK loaded and from the [catch] when it did not.  The callback is the
    one of the first render, which closed over [isKakaoLoaded = false].
    [atLoad] and [atRequest] are the browser at the two moments; the delay
    of the timer is not represented. *)
Definition initializeLocation (bypass : bool) (atLoad atRequest : Browser)
  : M unit :=
  fun st =>
    match loadKakaoMaps atLoad st with
    | (Fulfilled _, st1, cs1) =>
        let '(r, st2, cs2) := getCurrentLocation bypass false atRequest st1 in
        (r, st2, cs1 ++ cs2)
    | (Rejected _, st1, cs1) =>
        let '(r, st2, cs2) := getCurrentLocation bypass false atRequest st1 in
        (r, st2, cs1 ++ cs2)
    end.

(** *** Notions the proofs use *)

(** Calls of [navigator.geolocation.getCurrentPosition]. *)
Definition isGeoRequest (c : Call) : bool :=
  match c with
  | GetCurrentPosition _ => true
  | _ => false
  end.

(** Insertions of the SDK script. *)
Definition isSdkAppend (c : Call) : bool :=
  match c with
  | AppendSdkScript => true
  | _ => false
  end.

(** The two promises [getCurrentLocation] awaits in its [try] block, one
    after the other: how they settle decides between [catch] and the rest
    of the block. *)
Definition locate (kakaoLoaded : bool) (br : Browser) : M Coordinates :=
  (if negb kakaoLoaded then loadKakaoMaps br else ret tt) ;;
  getCurrentLocationWithKakao kakaoLoaded br.

(** Code that leaves the memo cell alone. *)
Definition keepsMemo {A : Type} (m : M A) : Prop :=
  forall st, withinRangeMemo (stateAfter (m st)) = withinRangeMemo st.

(** The value in the cell is the one the memoised function gives for the
    dependencies in the cell. *)
Definition memoCoherent (bypass : bool) (st : HookState) : Prop :=
  match withinRangeMemo st with
  | None => True
  | Some (deps, v) => v = withinRangeBody bypass (fst deps) (snd deps) tt
  end.

End Hook.

(** ** The component [SpotList] *)

Module Spots.

Import Ascii.
Local Open Scope string_scope.
Local Open Scope list_scope.

(** Concatenation of the pieces of a template literal. *)
Local Infix "+++" := String.append (at level 60, right associativity).

(** The fields of a [TouristSpot] that [SpotList] reads.  The declaration
    itself ([types/tourist]) is not embedded here; [coins] is
    taken to be an integer and [type] to be already in the text form the
    template literal gives it. *)
Record TouristSpot : Type := mkSpot {
  id : string;
  name : string;
  district : string;
  category : string;
  image : string;
  visited : bool;
  coins : Z;
  description : string;
  address : string;
  type : string
}.

(** *** Lookups *)

Record DistrictInfo : Type := mkDistrictInfo {
  d_name : string;
  d_color : string;
  d_textColor : string
}.

Definition getDistrictInfo (district : string) : DistrictInfo :=
  if district =? "jung" then mkDistrictInfo "중구" "bg-red-500" "text-red-600"
  else if district =? "nam"
  then mkDistrictInfo "남구" "bg-blue-500" "text-blue-600"
  else if district =? "dong"
  then mkDistrictInfo "동구" "bg-yellow-500" "text-yellow-600"
  else if district =? "buk"
  then mkDistrictInfo "북구" "bg-purple-500" "text-purple-600"
  else if district =? "ulju"
  then mkDistrictInfo "울주군" "bg-green-500" "text-green-600"
  else mkDistrictInfo "기타" "bg-gray-500" "text-gray-600".

(** The icons imported from [lucide-react]. *)
Inductive Icon : Type :=
| MapPin | Coins | CheckCircle | Star | Building | ShoppingBag | Bed
| Camera | Zap | TreePine | Utensils | Route | Calendar.

Inductive Tag : Type := div | span | h3 | p.

(** The attributes the component sets on an element.  [animationDelay] is
    the card's index; the style shows a tenth of it, in seconds. *)
Record Attrs : Type := mkAttrs {
  key : option string;
  className : string;
  animationDelay : option nat;
  backgroundImage : option string
}.

Definition cls (c : string) : Attrs := mkAttrs None c None None.

(** The rendered tree.  A button carries the spot its click handler closed
    over. *)
#[warnings="-register-all"]
Inductive Node : Type :=
| Elem (tag : Tag) (attrs : Attrs) (children : list Node)
| IconEl (icon : Icon) (cn : string)
| Text (s : string)
| Number (n : Z)
| Link (to : string) (cn : string) (children : list Node)
| Button (onClick : TouristSpot) (cn : string) (children : list Node).

Definition getCategoryIcon (category : string) : Node :=
  if category =? "문화관광" then IconEl Star "w-4 h-4"
  else if category =? "자연관광" then IconEl TreePine "w-4 h-4"
  else if category =? "역사관광" then IconEl Building "w-4 h-4"
  else if category =? "쇼핑" then IconEl ShoppingBag "w-4 h-4"
  else if category =? "숙박" then IconEl Bed "w-4 h-4"
  else if category =? "체험관광" then IconEl Camera "w-4 h-4"
  else if category =? "레저스포츠" then IconEl Zap "w-4 h-4"
  else if category =? "음식" then IconEl Utensils "w-4 h-4"
  else if category =? "추천코스" then IconEl Route "w-4 h-4"
  else if category =? "축제/공연/행사" then IconEl Calendar "w-4 h-4"
  else IconEl MapPin "w-4 h-4".

Definition getCategoryColor (category : string) : string :=
  if category =? "문화관광" then "text-blue-600 bg-blue-50"
  else if category =? "자연관광" then "text-emerald-600 bg-emerald-50"
  else if category =? "역사관광" then "text-violet-600 bg-violet-50"
  else if category =? "쇼핑" then "text-emerald-600 bg-emerald-50"
  else if category =? "숙박" then "text-amber-600 bg-amber-50"
  else if category =? "체험관광" then "text-pink-600 bg-pink-50"
  else if category =? "레저스포츠" then "text-red-600 bg-red-50"
  else if category =? "음식" then "text-orange-600 bg-orange-50"
  else if category =? "추천코스" then "text-violet-600 bg-violet-50"
  else if category =? "축제/공연/행사" then "text-red-600 bg-red-50"
  else "text-gray-600 bg-gray-50".

(** *** [handleCheckInClick] *)

(** [encodeURIComponent] on the UTF-8 bytes of a string: the unreserved
    characters stay, every other byte becomes [%XX].  A string here is
    well-formed text; the [URIError] the built-in throws on a lone surrogate
    has no counterpart. *)
Definition isUnreserved (c : ascii) : bool :=
  let n := N_of_ascii c in
  ((65 <=? n) && (n <=? 90) || (97 <=? n) && (n <=? 122)
   || (48 <=? n) && (n <=? 57)
   || (n =? 45) || (n =? 95) || (n =? 46) || (n =? 33) || (n =? 126)
   || (n =? 42) || (n =? 39) || (n =? 40) || (n =? 41))%N.

Definition hexDigit (n : N) : ascii :=
  ascii_of_N (if (n <? 10)%N then 48 + n else 55 + n).

Fixpoint encodeURIComponent (s : string) : string :=
  match s with
  | EmptyString => EmptyString
  | String c rest =>
      if isUnreserved c then String c (encodeURIComponent rest)
      else
        let n := N_of_ascii c in
        String "%"
          (String (hexDigit (n / 16))
             (String (hexDigit (n mod 16)) (encodeURIComponent rest)))
  end.

(** What [testModeManager.getTestSpotDetail] hands back, as far as the
    handler reads it. *)
Record TestSpotDetail : Type := mkTestSpot {
  contentid : string;
  contenttypeid : string
}.

(** The two answers of [testModeManager] the handler asks for; the manager
    ([data/testData]) is not embedded here. *)
Record TestModeManager : Type := mkManager {
  isTestMode : bool;
  getTestSpotDetail : string -> option TestSpotDetail
}.

Inductive Effect : Type :=
| PreventDefault
| StopPropagation
| Navigate (url : string).

Definition checkinUrl (contentId contentType fromSpotId : string) : string :=
  "/checkin?contentId=" +++ contentId +++ "&contentType=" +++ contentType
  +++ "&fromSpotId=" +++ encodeURIComponent fromSpotId.

Definition handleCheckInClick (testModeManager : TestModeManager)
  (spot : TouristSpot) : list Effect :=
  [PreventDefault; StopPropagation]
  ++ (if negb (visited spot) then
        if isTestMode testModeManager then
          match getTestSpotDetail testModeManager (id spot) with
          | Some testSpot =>
              [Navigate (checkinUrl (contentid testSpot)
                           (contenttypeid testSpot) (id spot))]
          | None => []
          end
        else [Navigate (checkinUrl (id spot) (type spot) (id spot))]
      else []).

(** The URLs a run of the handler navigates to. *)
Fixpoint navigations (effects : list Effect) : list string :=
  match effects with
  | [] => []
  | Navigate url :: rest => url :: navigations rest
  | _ :: rest => navigations rest
  end.

(** *** The rendered list *)

Definition placeholderImage : string := "/placeholder-image.jpg".

(** The thumbnail of a card. *)
Definition renderThumbnail (spot : TouristSpot) : Node :=
  let categoryColor := getCategoryColor (category spot) in
  Elem div
    (mkAttrs None
       "w-20 h-20 rounded-lg bg-cover bg-center flex-shrink-0 relative bg-gradient-to-br from-blue-100 to-cyan-100 flex items-center justify-center"
       None
       (if negb (image spot =? placeholderImage)
        then Some ("url(" +++ image spot +++ ")") else None))
    ((if image spot =? placeholderImage
      then [Elem div (cls ("p-2 rounded-lg " +++ categoryColor))
              [getCategoryIcon (category spot)]]
      else [])
     ++
     (if visited spot
      then [Elem div
              (cls "absolute inset-0 bg-green-500/20 rounded-lg flex items-center justify-center")
              [IconEl CheckCircle "w-8 h-8 text-green-500"]]
      else [])).

(** The coin badge. *)
Definition renderCoins (spot : TouristSpot) : Node :=
  Elem div
    (cls "flex items-center space-x-1 bg-gradient-to-r from-yellow-400 to-orange-400 px-2 py-1 rounded-full flex-shrink-0")
    [IconEl Coins "w-3 h-3 text-white";
     Elem span (cls "text-white text-xs font-bold") [Number (coins spot)]].

(** The district dot and name. *)
Definition renderDistrict (spot : TouristSpot) : Node :=
  let districtInfo := getDistrictInfo (district spot) in
  Elem div (cls "flex items-center space-x-1")
    [Elem div
       (cls ("w-2 h-2 " +++ d_color districtInfo +++ " rounded-full flex-shrink-0"))
       [];
     Elem span (cls ("text-xs font-medium " +++ d_textColor districtInfo))
       [Text (d_name districtInfo)]].

(** The category chip: colour, icon, label. *)
Definition renderCategory (spot : TouristSpot) : Node :=
  let categoryColor := getCategoryColor (category spot) in
  Elem div
    (cls ("flex items-center space-x-1 px-2 py-0.5 rounded-full " +++ categoryColor))
    [getCategoryIcon (category spot);
     Elem span (cls "text-xs font-medium") [Text (category spot)]].

Definition visitCompleteLabel : string := "방문 완료".
Definition detailLabel : string := "상세보기".
Definition checkInLabel : string := "체크인".

(** The indicator of a visited spot. *)
Definition renderVisitComplete : Node :=
  Elem div
    (cls "flex items-center justify-center text-sm text-green-600 font-medium")
    [IconEl CheckCircle "w-4 h-4 mr-1"; Text visitCompleteLabel].

(** The check-in button of a spot that is not visited. *)
Definition renderCheckInButton (spot : TouristSpot) : Node :=
  Button spot
    "flex-1 bg-blue-500 text-white py-2 px-4 rounded-lg text-sm font-medium hover:bg-blue-600 transition-colors flex items-center justify-center space-x-1"
    [IconEl Camera "w-4 h-4"; Elem span (cls "") [Text checkInLabel]].

Definition renderActions (spot : TouristSpot) : Node :=
  Elem div (cls "flex items-center space-x-2")
    [Link ("/spot/" +++ id spot)
       "flex-1 bg-gray-100 text-gray-700 py-2 px-4 rounded-lg text-center text-sm font-medium hover:bg-gray-200 transition-colors"
       [Text detailLabel];
     renderCheckInButton spot].

(** The body of the [spots.map] callback. *)
Definition renderCard (index : nat) (spot : TouristSpot) : Node :=
  Elem div
    (mkAttrs (Some (id spot))
       ("bg-white rounded-xl p-4 shadow-sm border border-gray-100 transition-all animate-slideUp "
        +++ (if visited spot then "opacity-75"
            else "hover:shadow-md hover:scale-[1.02]"))
       (Some index) None)
    [Elem div (cls "flex space-x-4")
       [renderThumbnail spot;
        Elem div (cls "flex-1 min-w-0")
          [Elem div (cls "flex items-start justify-between mb-2")
             [Elem div (cls "flex items-center space-x-2 flex-1 min-w-0")
                [Elem h3 (cls "font-semibold text-gray-800 truncate")
                   [Text (name spot)]];
              renderCoins spot];
           Elem div (cls "flex items-center space-x-2 mb-2")
             [renderDistrict spot; renderCategory spot];
           Elem p (cls "text-sm text-gray-600 mb-2 line-clamp-2")
             [Text (description spot)];
           Elem div (cls "flex items-center justify-between")
             [Elem div (cls "flex items-center text-xs text-gray-500")
                [IconEl MapPin "w-3 h-3 mr-1";
                 Elem span (cls "truncate") [Text (address spot)]]]]];
     Elem div (cls "mt-3 pt-3 border-t border-gray-100")
       [if visited spot then renderVisitComplete else renderActions spot]].

(** [array.map((x, index) => ...)], counting from [index]. *)
Fixpoint mapIndexed {A B : Type} (f : nat -> A -> B) (index : nat)
  (xs : list A) : list B :=
  match xs with
  | [] => []
  | x :: rest => f index x :: mapIndexed f (S index) rest
  end.

Definition emptyLabel : string := "해당 조건의 관광지가 없습니다".

(** What is shown when [spots.length === 0]. *)
Definition renderEmpty : Node :=
  Elem div (cls "text-center py-12")
    [IconEl MapPin "w-12 h-12 text-gray-300 mx-auto mb-3";
     Elem p (cls "text-gray-500") [Text emptyLabel]].

(** The component. *)
Definition SpotList (spots : list TouristSpot) : Node :=
  Elem div (cls "px-4 py-4 space-y-4")
    (mapIndexed renderCard 0 spots
     ++ (if Nat.eqb (List.length spots) 0 then [renderEmpty] else [])).

(** *** Reading a rendered tree *)

Definition childrenOf (n : Node) : list Node :=
  match n with
  | Elem _ _ children => children
  | Link _ _ children => children
  | Button _ _ children => children
  | _ => []
  end.

(** A node and everything below it, in document order. *)
Fixpoint subnodes (n : Node) : list Node :=
  let below :=
    fix below (children : list Node) : list Node :=
      match children with
      | [] => []
      | child :: rest => subnodes child ++ below rest
      end in
  n :: match n with
       | Elem _ _ children => below children
       | Link _ _ children => below children
       | Button _ _ children => below children
       | _ => []
       end.

(** [shows card x]: the node [x] occurs in [card]. *)
Definition shows (card x : Node) : Prop := In x (subnodes card).

Definition isButton (n : Node) : bool :=
  match n with
  | Button _ _ _ => true
  | _ => false
  end.

(** An element is a card when it carries a [key]. *)
Definition isCard (n : Node) : bool :=
  match n with
  | Elem _ attrs _ => match key attrs with Some _ => true | None => false end
  | _ => false
  end.

(** The cards of a rendered list: the keyed children of its root. *)
Definition cards (root : Node) : list Node := filter isCard (childrenOf root).

(** *** Check-in *)

(** Modelled from the spec: the check-in itself, which the page behind
    [/checkin] performs, is missing from the embedded code.  Upon being within
    the allowed radius of the spot's coordinates (the great-circle distance
    from the current device location to the spot's location is at most the
    radius) the spot is marked visited and its coins are granted.  The spec
    is silent about a check-in outside the radius; here it changes nothing.
    [wallet] is the user's coin balance. *)
Definition checkIn (current spotLocation : Geo.Coordinates)
  (allowedRadius : R) (spot : TouristSpot) (wallet : Z) : TouristSpot * Z :=
  if Hook.leNumber (Geo.calculateDistance current spotLocation) allowedRadius
  then (mkSpot (id spot) (name spot) (district spot) (category spot)
          (image spot) true (coins spot) (description spot) (address spot)
          (type spot),
        (wallet + coins spot)%Z)
  else (spot, wallet).

(** *** Notions the proofs use *)

(** The value of a hexadecimal digit. *)
Definition hexValue (c : ascii) : N :=
  let n := N_of_ascii c in
  (if n <? 58 then n - 48 else n - 55)%N.

(** Reading [%XX] back into the byte it stands for: what the receiver of an
    encoded component does.  The proofs use it to show that encoding loses
    nothing. *)
Fixpoint percentDecode (s : string) : string :=
  match s with
  | EmptyString => EmptyString
  | String c rest =>
      if Ascii.eqb c "%" then
        match rest with
        | String h (String l rest') =>
            String (ascii_of_N (16 * hexValue h + hexValue l))
              (percentDecode rest')
        | _ => String c (percentDecode rest)
        end
      else String c (percentDecode rest)
  end.

(** Every character of the string passes the test. *)
Fixpoint allChars (test : ascii -> bool) (s : string) : bool :=
  match s with
  | EmptyString => true
  | String c rest => test c && allChars test rest
  end.

Definition isLink (n : Node) : bool :=
  match n with
  | Link _ _ _ => true
  | _ => false
  end.

(** The [key] of an element. *)
Definition keyOf (n : Node) : option string :=
  match n with
  | Elem _ attrs _ => key attrs
  | _ => None
  end.

(** The categories the two [switch] statements name. *)
Definition knownCategories : list string :=
  ["문화관광"; "자연관광"; "역사관광"; "쇼핑"; "숙박"; "체험관광"; "레저스포츠";
   "음식"; "추천코스"; "축제/공연/행사"].

End Spots.

(** ** Concrete inputs *)

Module Samples.

Import Geo Hook Spots.
Local Open Scope string_scope.

Definition origin : Coordinates := mkCoordinates 0 0.

(** A browser without [navigator.geolocation]. *)
Definition noGeolocation : Browser := mkBrowser None false ScriptError false.

(** A browser whose geolocation requests time out. *)
Definition timingOut : Browser :=
  mkBrowser (Some (fun _ => PositionError 3)) true (ScriptLoaded true) true.

(** The hook after a watched position at the origin. *)
Definition atOrigin : HookState :=
  stateAfter (onWatchedPosition false noGeolocation 0 0 mounted).

(** The hook after a bypassed request. *)
Definition bypassed : HookState := stateAfter (bypassRequest mounted).

Definition taehwa : TouristSpot :=
  mkSpot "126078" "태화강 국가정원" "jung" "자연관광" placeholderImage false 50
    "" "" "12".

Definition daewangam : TouristSpot :=
  mkSpot "spot 2" "대왕암공원" "dong" "자연관광" "/daewangam.jpg" true 30
    "" "" "12".

(** Test mode with no detail for any spot. *)
Definition noDetails : TestModeManager := mkManager true (fun _ => None).

(** A browser that answers position requests; the SDK is present or not,
    and its script loads or not, as said. *)
Definition sdkAnswering (present : bool) (script : ScriptAnswer) : Browser :=
  mkBrowser (Some (fun _ => Position 35 129 10)) present script true.

(** One degree south of the bypass coordinates. *)
Definition oneDegreeSouth : Coordinates := mkCoordinates 34.5384%R 129.3114%R.

(** Props with the default radius: a target far from the bypass
    coordinates, and one at the origin. *)
Definition farTarget : UseLocationAuthProps := mkProps oneDegreeSouth None.
Definition nearTarget : UseLocationAuthProps := mkProps origin None.

(** Mounted and rendered once while the manager answered [true]. *)
Definition renderedWithBypass (props : UseLocationAuthProps) : HookState :=
  snd (useLocationAuth true props mounted).

(** Mounted and rendered once while the manager answered [false]. *)
Definition renderedWithoutBypass (props : UseLocationAuthProps) : HookState :=
  snd (useLocationAuth false props mounted).

(** Rendered while the manager answered [true], located by the bypass
    branch of [getCurrentLocation], rendered again under the same answer. *)
Definition bypassedAndRendered (props : UseLocationAuthProps) : HookState :=
  snd (useLocationAuth true props
         (stateAfter (bypassRequest (renderedWithBypass props)))).

(** The hook after a request that failed for want of geolocation. *)
Definition failedOnce : HookState :=
  stateAfter (getCurrentLocation false true noGeolocation mounted).

(** A spot whose id needs encoding. *)
Definition spaced : TouristSpot :=
  mkSpot "spot 2" "" "" "" "" false 0 "" "" "12".

End Samples.

(** * Properties *)

(** ** Great-circle geometry *)

Module GeoFacts.

Import Geo.
Local Open Scope R_scope.

(** *** Facts about [atan2] on the quadrant the formula uses *)

Lemma atan2_pos_x (y x : R) : 0 < x -> atan2 y x = atan (y / x).
Proof.
  intros Hx. unfold atan2. destruct (Rlt_dec 0 x); [reflexivity | contradiction].
Qed.

Lemma atan2_zero_x_pos_y (y : R) : 0 < y -> atan2 y 0 = PI / 2.
Proof.
  intros Hy. unfold atan2.
  destruct (Rlt_dec 0 0) as [H | _]; [lra |].
  destruct (Rlt_dec 0 y); [reflexivity | contradiction].
Qed.

Lemma atan2_0_1 : atan2 0 1 = 0.
Proof.
  rewrite atan2_pos_x by lra.
  replace (0 / 1) with 0 by lra. apply atan_0.
Qed.

(** On the unit quarter circle [atan2] recovers the angle whose sine is the
    first argument. *)
Lemma sin_atan2_sqrt (a : R) :
  0 <= a <= 1 -> sin (atan2 (sqrt a) (sqrt (1 - a))) = sqrt a.
Proof.
  intros [H0 H1].
  destruct (Req_dec_T a 1) as [-> | Hne].
  - replace (1 - 1) with 0 by lra. rewrite sqrt_0, sqrt_1.
    rewrite atan2_zero_x_pos_y by lra. apply sin_PI2.
  - assert (Hlt : 0 < 1 - a) by lra.
    assert (Hs : 0 < sqrt (1 - a)) by (apply sqrt_lt_R0; exact Hlt).
    rewrite atan2_pos_x by exact Hs.
    rewrite sin_atan.
    set (s := sqrt a). set (t := sqrt (1 - a)) in *.
    assert (Hss : s * s = a) by (apply sqrt_sqrt; exact H0).
    assert (Htt : t * t = 1 - a) by (apply sqrt_sqrt; lra).
    assert (Hone : 1 + (s / t)² = (/ t)²).
    { unfold Rsqr. field_simplify_eq; [| lra]. nra. }
    rewrite Hone. rewrite sqrt_Rsqr.
    + field. lra.
    + left. apply Rinv_0_lt_compat. exact Hs.
Qed.

Lemma atan2_sqrt_range (a : R) :
  0 <= a <= 1 -> 0 <= atan2 (sqrt a) (sqrt (1 - a)) <= PI / 2.
Proof.
  intros [H0 H1].
  destruct (Req_dec_T a 1) as [-> | Hne].
  - replace (1 - 1) with 0 by lra. rewrite sqrt_0, sqrt_1.
    rewrite atan2_zero_x_pos_y by lra.
    pose proof PI_RGT_0. lra.
  - assert (Hs : 0 < sqrt (1 - a)) by (apply sqrt_lt_R0; lra).
    rewrite atan2_pos_x by exact Hs.
    pose proof (atan_bound (sqrt a / sqrt (1 - a))) as Hb.
    split; [| lra].
    destruct (Req_dec_T a 0) as [-> | Hne0].
    + rewrite sqrt_0. replace (0 / sqrt (1 - 0)) with 0 by (field; lra).
      rewrite atan_0. lra.
    + rewrite <- atan_0. left. apply atan_increasing.
      apply Rdiv_lt_0_compat; [apply sqrt_lt_R0; lra | exact Hs].
Qed.

(** *** The quantity [a] *)

Lemma haversine_a_sym (p q : Coordinates) : haversine_a p q = haversine_a q p.
Proof.
  unfold haversine_a; cbv zeta.
  replace ((lat p - lat q) * PI / 180 / 2)
    with (- ((lat q - lat p) * PI / 180 / 2)) by lra.
  replace ((lng p - lng q) * PI / 180 / 2)
    with (- ((lng q - lng p) * PI / 180 / 2)) by lra.
  rewrite !sin_neg. ring.
Qed.

Lemma haversine_a_refl (p : Coordinates) : haversine_a p p = 0.
Proof.
  unfold haversine_a; cbv zeta.
  replace ((lat p - lat p) * PI / 180 / 2) with 0 by lra.
  replace ((lng p - lng p) * PI / 180 / 2) with 0 by lra.
  rewrite sin_0. ring.
Qed.

Lemma earthRadius_value : earthRadius = 6371000.
Proof. unfold earthRadius. lra. Qed.

(** The cosine of a central angle lies between -1 and 1. *)
Lemma law_of_cosines_bound (s1 c1 s2 c2 k : R) :
  s1 * s1 + c1 * c1 = 1 -> s2 * s2 + c2 * c2 = 1 -> -1 <= k <= 1 ->
  -1 <= s1 * s2 + c1 * c2 * k <= 1.
Proof.
  intros H1 H2 [Hk1 Hk2].
  pose proof (Rle_0_sqr (s1 - s2)) as A1. pose proof (Rle_0_sqr (s1 + s2)) as A2.
  pose proof (Rle_0_sqr (c1 - c2)) as A3. pose proof (Rle_0_sqr (c1 + c2)) as A4.
  unfold Rsqr in A1, A2, A3, A4.
  destruct (Rle_dec 0 (c1 * c2)) as [Hc | Hc]; split; nra.
Qed.

(** [1 - 2 a] is the cosine of the central angle. *)
Lemma haversine_a_cos (p q : Coordinates) :
  1 - 2 * haversine_a p q
  = sin (toRadians (lat p)) * sin (toRadians (lat q))
    + cos (toRadians (lat p)) * cos (toRadians (lat q))
      * cos (toRadians (lng q) - toRadians (lng p)).
Proof.
  unfold haversine_a, toRadians; cbv zeta.
  set (f1 := lat p * (PI / 180)). set (f2 := lat q * (PI / 180)).
  set (l1 := lng p * (PI / 180)). set (l2 := lng q * (PI / 180)).
  replace (lat p * PI / 180) with f1 by (unfold f1; lra).
  replace (lat q * PI / 180) with f2 by (unfold f2; lra).
  replace ((lat q - lat p) * PI / 180 / 2) with ((f2 - f1) / 2)
    by (unfold f1, f2; lra).
  replace ((lng q - lng p) * PI / 180 / 2) with ((l2 - l1) / 2)
    by (unfold l1, l2; lra).
  assert (Hd : cos (f2 - f1) = 1 - 2 * sin ((f2 - f1) / 2) * sin ((f2 - f1) / 2)).
  { rewrite <- cos_2a_sin. f_equal. lra. }
  assert (Hl : cos (l2 - l1) = 1 - 2 * sin ((l2 - l1) / 2) * sin ((l2 - l1) / 2)).
  { rewrite <- cos_2a_sin. f_equal. lra. }
  rewrite Hl. rewrite cos_minus in Hd. nra.
Qed.

Lemma haversine_a_range (p q : Coordinates) : 0 <= haversine_a p q <= 1.
Proof.
  pose proof (haversine_a_cos p q) as Hk.
  pose proof (law_of_cosines_bound
                (sin (toRadians (lat p))) (cos (toRadians (lat p)))
                (sin (toRadians (lat q))) (cos (toRadians (lat q)))
                (cos (toRadians (lng q) - toRadians (lng p)))) as Hb.
  pose proof (sin2_cos2 (toRadians (lat p))) as S1.
  pose proof (sin2_cos2 (toRadians (lat q))) as S2.
  unfold Rsqr in S1, S2.
  specialize (Hb S1 S2 (COS_bound _)).
  lra.
Qed.

Lemma haversine_a_spec_form (p q : Coordinates) :
  haversine_a p q
  = (sin ((toRadians (lat q) - toRadians (lat p)) / 2))²
    + cos (toRadians (lat p)) * cos (toRadians (lat q))
      * (sin ((toRadians (lng q) - toRadians (lng p)) / 2))².
Proof.
  unfold haversine_a, toRadians, Rsqr; cbv zeta.
  replace ((lat q - lat p) * PI / 180 / 2)
    with ((lat q * (PI / 180) - lat p * (PI / 180)) / 2) by lra.
  replace ((lng q - lng p) * PI / 180 / 2)
    with ((lng q * (PI / 180) - lng p * (PI / 180)) / 2) by lra.
  replace (lat p * PI / 180) with (lat p * (PI / 180)) by lra.
  replace (lat q * PI / 180) with (lat q * (PI / 180)) by lra.
  ring.
Qed.

Lemma calculateDistance_centralAngle (p q : Coordinates) :
  calculateDistance p q
  = 6371000 * centralAngle (lat p) (lng p) (lat q) (lng q).
Proof.
  unfold calculateDistance, centralAngle; cbv zeta.
  rewrite earthRadius_value. f_equal.
  rewrite <- haversine_a_cos.
  pose proof (haversine_a_range p q) as Ha.
  set (a := haversine_a p q) in *.
  set (theta := atan2 (sqrt a) (sqrt (1 - a))).
  pose proof (sin_atan2_sqrt a Ha) as Hs. fold theta in Hs.
  pose proof (atan2_sqrt_range a Ha) as Hr. fold theta in Hr.
  assert (Hc : cos (2 * theta) = 1 - 2 * a).
  { rewrite cos_2a_sin, Hs.
    replace (2 * sqrt a * sqrt a) with (2 * (sqrt a * sqrt a)) by ring.
    rewrite sqrt_sqrt by lra. reflexivity. }
  rewrite <- Hc. symmetry. apply acos_cos. lra.
Qed.

(** C2.  [calculateDistance] is the Haversine formula with radius 6371000:
    it equals the formula as the specification words it (angles converted
    from degrees to radians, [a], [c = 2 atan2 (sqrt a) (sqrt (1 - a))],
    [R c]), and that is the great-circle distance, the radius times the
    central angle between the two points. *)
Theorem calculateDistance_is_haversine (coord1 coord2 : Coordinates) :
  calculateDistance coord1 coord2
  = haversine_spec (lat coord1) (lng coord1) (lat coord2) (lng coord2)
  /\ calculateDistance coord1 coord2
     = 6371000 * centralAngle (lat coord1) (lng coord1) (lat coord2) (lng coord2).
Proof.
  split; [| apply calculateDistance_centralAngle].
  unfold calculateDistance, haversine_spec; cbv zeta.
  rewrite earthRadius_value, <- haversine_a_spec_form. reflexivity.
Qed.

Lemma calculateDistance_sym (p q : Coordinates) :
  calculateDistance p q = calculateDistance q p.
Proof. unfold calculateDistance. rewrite (haversine_a_sym p q). reflexivity. Qed.

Lemma calculateDistance_refl (p : Coordinates) : calculateDistance p p = 0.
Proof.
  unfold calculateDistance. rewrite haversine_a_refl.
  replace (1 - 0) with 1 by lra. rewrite sqrt_0, sqrt_1, atan2_0_1. ring.
Qed.

(** C10.  [calculateDistance] is symmetric in its two arguments, and the
    distance from a point to itself is 0. *)
Theorem calculateDistance_symmetric_zero :
  (forall a b : Coordinates, calculateDistance a b = calculateDistance b a)
  /\ (forall a : Coordinates, calculateDistance a a = 0).
Proof. split; [apply calculateDistance_sym | apply calculateDistance_refl]. Qed.

(** *** Sanity of the formula *)

(** Along a meridian the distance is the radius times the difference of the
    latitudes, in radians. *)
Lemma calculateDistance_meridian (lat1 lat2 lng0 : R) :
  0 <= lat2 - lat1 <= 180 ->
  calculateDistance (mkCoordinates lat1 lng0) (mkCoordinates lat2 lng0)
  = 6371000 * toRadians (lat2 - lat1).
Proof.
  intros Hd. rewrite calculateDistance_centralAngle. f_equal.
  unfold centralAngle; cbv zeta; simpl.
  replace (toRadians lng0 - toRadians lng0) with 0 by lra.
  rewrite cos_0, Rmult_1_r.
  replace (sin (toRadians lat1) * sin (toRadians lat2)
           + cos (toRadians lat1) * cos (toRadians lat2))
    with (cos (toRadians lat2 - toRadians lat1))
    by (rewrite cos_minus; ring).
  replace (toRadians lat2 - toRadians lat1) with (toRadians (lat2 - lat1))
    by (unfold toRadians; lra).
  apply acos_cos. unfold toRadians. pose proof PI_RGT_0. split; nra.
Qed.

Example one_degree_north_is_out_of_range :
  300 < calculateDistance (mkCoordinates 1 0) Samples.origin.
Proof.
  rewrite calculateDistance_sym. unfold Samples.origin.
  rewrite calculateDistance_meridian by lra.
  unfold toRadians. pose proof PI2_3_2. lra.
Qed.

(** *** More on the distance *)



End GeoFacts.

(** ** The hook *)

Module HookFacts.

Import Geo Hook Samples GeoFacts.
Local Open Scope list_scope.

(** *** The memo cell is touched by rendering only *)

Lemma keepsMemo_ret {A : Type} (a : A) : keepsMemo (ret a).
Proof. intro st. reflexivity. Qed.

Lemma keepsMemo_reject {A : Type} (e : Thrown) : keepsMemo (@reject A e).
Proof. intro st. reflexivity. Qed.

Lemma keepsMemo_call (c : Call) : keepsMemo (call c).
Proof. intro st. reflexivity. Qed.

Lemma keepsMemo_update (f : HookState -> HookState) :
  (forall st, withinRangeMemo (f st) = withinRangeMemo st) ->
  keepsMemo (update f).
Proof. intros Hf st. apply Hf. Qed.

Lemma keepsMemo_bind {A B : Type} (m : M A) (k : A -> M B) :
  keepsMemo m -> (forall a, keepsMemo (k a)) -> keepsMemo (bind m k).
Proof.
  intros Hm Hk st. unfold bind, stateAfter.
  specialize (Hm st). unfold stateAfter in Hm.
  destruct (m st) as [[[a | e] st1] cs1]; simpl in *.
  - specialize (Hk a st1). unfold stateAfter in Hk.
    destruct (k a st1) as [[r st2] cs2]; simpl in *. congruence.
  - exact Hm.
Qed.

Lemma keepsMemo_tryCatchFinally (body : M unit) (handler : Thrown -> M unit)
  (final : M unit) :
  keepsMemo body -> (forall e, keepsMemo (handler e)) -> keepsMemo final ->
  keepsMemo (tryCatchFinally body handler final).
Proof.
  intros Hb Hh Hf st. unfold tryCatchFinally, stateAfter.
  specialize (Hb st). unfold stateAfter in Hb.
  destruct (body st) as [[[u | e] st1] cs1]; simpl in *.
  - specialize (Hf st1). unfold stateAfter in Hf.
    destruct (final st1) as [[[u2 | e2] st2] cs2]; simpl in *; congruence.
  - specialize (Hh e st1). unfold stateAfter in Hh.
    destruct (handler e st1) as [[r st2] cs2]; simpl in *.
    specialize (Hf st2). unfold stateAfter in Hf.
    destruct (final st2) as [[[u3 | e3] st3] cs3]; destruct r; simpl in *;
      congruence.
Qed.

Ltac keeps_memo :=
  repeat first
    [ apply keepsMemo_bind; [| intro]
    | apply keepsMemo_tryCatchFinally; [| intro |]
    | apply keepsMemo_ret
    | apply keepsMemo_reject
    | apply keepsMemo_call
    | apply keepsMemo_update; intro; reflexivity
    | match goal with
      | |- keepsMemo (if ?b then _ else _) => destruct b
      | |- keepsMemo (match ?x with _ => _ end) => destruct x
      end ].

Lemma keepsMemo_loadKakaoMaps (br : Browser) : keepsMemo (loadKakaoMaps br).
Proof. unfold loadKakaoMaps. keeps_memo. Qed.

Lemma keepsMemo_verifyWithKakao kl br coords :
  keepsMemo (verifyWithKakao kl br coords).
Proof. unfold verifyWithKakao. keeps_memo. Qed.

Lemma keepsMemo_getCurrentLocationWithKakao kl br :
  keepsMemo (getCurrentLocationWithKakao kl br).
Proof.
  unfold getCurrentLocationWithKakao.
  destruct (geolocation br) as [geo |]; [| keeps_memo].
  apply keepsMemo_bind; [keeps_memo | intros _].
  destruct (geo requestOptions); [| keeps_memo].
  apply keepsMemo_bind; [apply keepsMemo_verifyWithKakao | intros _].
  keeps_memo.
Qed.

Lemma keepsMemo_bypassRequest : keepsMemo bypassRequest.
Proof. unfold bypassRequest. keeps_memo. Qed.

Lemma keepsMemo_beginRequest : keepsMemo beginRequest.
Proof. unfold beginRequest. keeps_memo. Qed.

Lemma keepsMemo_settleRequest kl br : keepsMemo (settleRequest kl br).
Proof.
  unfold settleRequest.
  apply keepsMemo_tryCatchFinally; [| intro; keeps_memo | keeps_memo].
  apply keepsMemo_bind.
  - destruct (negb kl); [apply keepsMemo_loadKakaoMaps | keeps_memo].
  - intros _. apply keepsMemo_bind;
      [apply keepsMemo_getCurrentLocationWithKakao | intro; keeps_memo].
Qed.

Lemma keepsMemo_onWatchedPosition kl br la lo :
  keepsMemo (onWatchedPosition kl br la lo).
Proof.
  unfold onWatchedPosition.
  apply keepsMemo_bind; [apply keepsMemo_verifyWithKakao | intro; keeps_memo].
Qed.

(** *** The memo cell stays coherent *)

Lemma sameNumber_eq (x y : R) : sameNumber x y = true -> x = y.
Proof. unfold sameNumber. destruct (Req_dec_T x y); [trivial | discriminate]. Qed.

Lemma sameDeps_eq (d1 d2 : Deps) : sameDeps d1 d2 = true -> d1 = d2.
Proof.
  destruct d1 as [[x |] r1], d2 as [[y |] r2]; unfold sameDeps; simpl;
    intros H; try discriminate.
  - apply andb_prop in H. destruct H as [Hx Hr].
    apply sameNumber_eq in Hx. apply sameNumber_eq in Hr. congruence.
  - apply sameNumber_eq in H. congruence.
Qed.

Lemma useMemo_coherent (bypass : bool) (cell : MemoCell) (d : option R)
  (r : R) :
  match cell with
  | None => True
  | Some (deps, v) => v = withinRangeBody bypass (fst deps) (snd deps) tt
  end ->
  let out := useMemo cell (withinRangeBody bypass d r) (d, r) in
  fst out = withinRangeBody bypass d r tt
  /\ exists deps v, snd out = Some (deps, v)
       /\ v = withinRangeBody bypass (fst deps) (snd deps) tt.
Proof.
  intros Hc. unfold useMemo.
  destruct cell as [[deps0 v0] |]; simpl.
  - destruct (sameDeps deps0 (d, r)) eqn:Hs; simpl.
    + apply sameDeps_eq in Hs. subst deps0. simpl in Hc.
      split; [exact Hc |]. exists (d, r), v0. split; [reflexivity | exact Hc].
    + split; [reflexivity |]. eexists _, _. split; reflexivity.
  - split; [reflexivity |]. eexists _, _. split; reflexivity.
Qed.

Lemma render_within (bypass : bool) (props : UseLocationAuthProps)
  (st : HookState) :
  memoCoherent bypass st ->
  r_isWithinRange (fst (useLocationAuth bypass props st))
  = withinRangeBody bypass (distanceOf props st) (radiusOf props) tt.
Proof.
  intros Hc. unfold useLocationAuth.
  pose proof (useMemo_coherent bypass (withinRangeMemo st)
                (distanceOf props st) (radiusOf props) Hc) as [Hv _].
  cbv zeta in Hv.
  destruct (useMemo _ _ _) as [within cell]. exact Hv.
Qed.

Lemma render_coherent (bypass : bool) (props : UseLocationAuthProps)
  (st : HookState) :
  memoCoherent bypass st -> memoCoherent bypass (snd (useLocationAuth bypass props st)).
Proof.
  intros Hc. unfold useLocationAuth.
  pose proof (useMemo_coherent bypass (withinRangeMemo st)
                (distanceOf props st) (radiusOf props) Hc) as [_ Hcell].
  cbv zeta in Hcell.
  destruct (useMemo _ _ _) as [within cell]. simpl in *.
  destruct Hcell as (deps & v & -> & Hv). unfold memoCoherent. simpl. exact Hv.
Qed.

Lemma step_coherent (bypass : bool) (st st' : HookState) :
  step bypass st st' -> memoCoherent bypass st -> memoCoherent bypass st'.
Proof.
  intros Hstep Hc.
  destruct Hstep; try (apply render_coherent; exact Hc); unfold memoCoherent.
  - rewrite keepsMemo_loadKakaoMaps. exact Hc.
  - rewrite keepsMemo_bypassRequest. exact Hc.
  - rewrite keepsMemo_beginRequest. exact Hc.
  - rewrite keepsMemo_settleRequest. exact Hc.
  - rewrite keepsMemo_onWatchedPosition. exact Hc.
Qed.

Lemma reachable_coherent (bypass : bool) (st : HookState) :
  reachable bypass st -> memoCoherent bypass st.
Proof.
  induction 1 as [| st st' _ IH Hstep].
  - exact I.
  - exact (step_coherent bypass st st' Hstep IH).
Qed.

Lemma leNumber_true (x y : R) : leNumber x y = true <-> (x <= y)%R.
Proof.
  unfold leNumber. destruct (Rle_dec x y); split; intros; try easy.
Qed.

(** *** Running a request *)

Ltac run_cases kl br :=
  unfold getCurrentLocation, settleRequest, beginRequest, locate,
    getCurrentLocationWithKakao, loadKakaoMaps, verifyWithKakao;
  destruct kl; simpl;
  destruct (kakaoMaps br); simpl;
  destruct (sdkScript br) as [[|] |]; simpl;
  destruct (geolocation br) as [geo |]; simpl;
  try destruct (geo requestOptions) as [la lo acc | code]; simpl;
  destruct (kakaoServices br); simpl.

(** How a request ends, by how the awaited promises settle. *)
Lemma request_outcome (kakaoLoaded : bool) (br : Browser) (st : HookState) :
  let pending := stateAfter (beginRequest st) in
  let run := getCurrentLocation false kakaoLoaded br st in
  let final := stateAfter run in
  settledAs run = Fulfilled tt
  /\ isLoading final = false
  /\ match settledAs (locate kakaoLoaded br pending) with
     | Fulfilled coords =>
         currentLocation final = Some coords
         /\ isLocationEnabled final = true
         /\ locationError final = None
     | Rejected failure =>
         exists message,
           failure = ErrorObject message
           /\ locationError final = Some message
           /\ isLocationEnabled final = false
           /\ currentLocation final = currentLocation st
     end.
Proof.
  cbv zeta.
  run_cases kakaoLoaded br;
    repeat split; try (eexists; repeat split).
Qed.

Lemma atOrigin_reachable (bypass : bool) : reachable bypass atOrigin.
Proof.
  apply (reachable_step bypass mounted); [apply reachable_mounted |].
  apply step_watchedPosition.
Defined.

Lemma bypassed_reachable : reachable true bypassed.
Proof.
  apply (reachable_step true mounted); [apply reachable_mounted |].
  apply step_bypassRequest. reflexivity.
Defined.

(** *** The claims *)

(** As long as the manager has answered [false] since the hook mounted: with
    a current location, the hook reports the distance from the current
    location to the target, and [isWithinRange] is true exactly when that
    distance is at most the allowed radius, which is 300 when the props give
    none. *)
Theorem isWithinRange_iff_within_radius
  (target cur : Coordinates) (radius : option R) (st : HookState) :
  reachable false st ->
  currentLocation st = Some cur ->
  let r := match radius with Some given => given | None => 300%R end in
  let result := fst (useLocationAuth false (mkProps target radius) st) in
  r_distance result = Some (calculateDistance cur target)
  /\ (r_isWithinRange result = true <-> (calculateDistance cur target <= r)%R).
Proof.
  intros Hreach Hcur r result.
  assert (Hd : distanceOf (mkProps target radius) st
               = Some (calculateDistance cur target)).
  { unfold distanceOf. rewrite Hcur. reflexivity. }
  split.
  - subst result. unfold useLocationAuth. destruct (useMemo _ _ _). simpl. exact Hd.
  - subst result. rewrite render_within by (apply reachable_coherent; exact Hreach).
    rewrite Hd. simpl. apply leNumber_true.
Qed.

Lemma isWithinRange_iff_within_radius_witness :
  reachable false atOrigin
  /\ currentLocation atOrigin = Some origin
  /\ (r_isWithinRange (fst (useLocationAuth false (mkProps origin None) atOrigin)) = true
      <-> (calculateDistance origin origin <= 300)%R).
Proof.
  split; [apply atOrigin_reachable |]. split; [reflexivity |].
  exact (proj2 (isWithinRange_iff_within_radius origin origin None atOrigin
                  (atOrigin_reachable false) eq_refl)).
Defined.

(** With the bypass on, [getCurrentLocation] makes no call to the browser
    (no geolocation request in particular), sets the current location to
    (35.5384, 129.3114) and [isLocationEnabled] to true.  As long as the
    manager has answered [true] since the hook mounted, [isWithinRange] is
    true whatever the target, the radius and the current location. *)
Theorem bypass_fixed_location_always_in_range
  (kakaoLoaded : bool) (br : Browser) (st : HookState) :
  let run := getCurrentLocation true kakaoLoaded br st in
  callsOf run = []
  /\ currentLocation (stateAfter run)
     = Some (mkCoordinates 35.5384%R 129.3114%R)
  /\ isLocationEnabled (stateAfter run) = true
  /\ (forall (props : UseLocationAuthProps) (st' : HookState),
        reachable true st' ->
        r_isWithinRange (fst (useLocationAuth true props st')) = true).
Proof.
  cbv zeta. repeat split.
  intros props st' Hreach.
  rewrite render_within by (apply reachable_coherent; exact Hreach).
  reflexivity.
Qed.

Lemma bypass_fixed_location_always_in_range_witness :
  reachable true bypassed
  /\ r_isWithinRange
       (fst (useLocationAuth true (mkProps origin (Some 0%R)) bypassed)) = true.
Proof.
  split; [exact bypassed_reachable |].
  exact (proj2 (proj2 (proj2
           (bypass_fixed_location_always_in_range false noGeolocation mounted)))
           (mkProps origin (Some 0%R)) bypassed bypassed_reachable).
Defined.

(** C4.  Without geolocation support the request is rejected with the
    unsupported-browser message and nothing is asked of the browser.  With
    it, exactly one position request is made, with a timeout of 15000 ms;
    when it fails, the message of the rejection is given by the code:
    one message each for PERMISSION_DENIED, POSITION_UNAVAILABLE and
    TIMEOUT, the generic one for every other code.  The messages are
    pairwise different. *)
Theorem geolocation_request_and_errors
  (kakaoLoaded : bool) (br : Browser) (st : HookState) :
  let run := getCurrentLocationWithKakao kakaoLoaded br st in
  (geolocation br = None ->
     settledAs run = Rejected (ErrorObject msgUnsupported)
     /\ callsOf run = [])
  /\ (forall geo, geolocation br = Some geo ->
        (exists rest, callsOf run = GetCurrentPosition requestOptions :: rest
                      /\ forall options, ~ In (GetCurrentPosition options) rest)
        /\ timeout requestOptions = 15000%Z
        /\ forall code, geo requestOptions = PositionError code ->
             exists message,
               settledAs run = Rejected (ErrorObject message)
               /\ (code = PERMISSION_DENIED -> message = msgPermissionDenied)
               /\ (code = POSITION_UNAVAILABLE ->
                   message = msgPositionUnavailable)
               /\ (code = TIMEOUT -> message = msgTimeout)
               /\ (code <> PERMISSION_DENIED ->
                   code <> POSITION_UNAVAILABLE ->
                   code <> TIMEOUT -> message = msgGeneric))
  /\ NoDup [msgPermissionDenied; msgPositionUnavailable; msgTimeout;
            msgGeneric; msgUnsupported].
Proof.
  cbv zeta. split; [| split].
  - intros Hnone. unfold getCurrentLocationWithKakao. rewrite Hnone.
    split; reflexivity.
  - intros geo Hgeo. unfold getCurrentLocationWithKakao. rewrite Hgeo.
    split; [| split; [reflexivity |]].
    + unfold verifyWithKakao.
      destruct (geo requestOptions) as [la lo acc | code];
        destruct kakaoLoaded; destruct (kakaoServices br); simpl;
        eexists; (split; [reflexivity |]); intros options Hin; simpl in Hin;
        intuition discriminate.
    + intros code Hcode. rewrite Hcode. simpl.
      exists (positionErrorMessage code). split; [reflexivity |].
      unfold positionErrorMessage, PERMISSION_DENIED, POSITION_UNAVAILABLE,
        TIMEOUT.
      repeat split; intros.
      * subst code. reflexivity.
      * subst code. reflexivity.
      * subst code. reflexivity.
      * destruct (Z.eqb_spec code 1); [contradiction |].
        destruct (Z.eqb_spec code 2); [contradiction |].
        destruct (Z.eqb_spec code 3); [contradiction |]. reflexivity.
  - repeat constructor; simpl; intuition discriminate.
Qed.

Lemma geolocation_request_and_errors_witness :
  (geolocation noGeolocation = None
   /\ settledAs (getCurrentLocationWithKakao false noGeolocation mounted)
      = Rejected (ErrorObject msgUnsupported))
  /\ settledAs (getCurrentLocationWithKakao true timingOut mounted)
     = Rejected (ErrorObject msgTimeout).
Proof.
  split.
  - split; [reflexivity |].
    exact (proj1 (proj1 (geolocation_request_and_errors
                           false noGeolocation mounted) eq_refl)).
  - destruct (proj2 (proj2 (proj1 (proj2
               (geolocation_request_and_errors true timingOut mounted))
               (fun _ => PositionError 3) eq_refl)) 3%Z eq_refl)
      as (message & Hsettled & _ & _ & Htimeout & _).
    rewrite Hsettled, (Htimeout eq_refl). reflexivity.
Defined.

(** C5.  With the bypass off, [getCurrentLocation] first sets [isLoading]
    and clears [locationError], touching nothing else; it always returns,
    with [isLoading] false.  When the awaited promises are fulfilled with
    coordinates, these become the current location, [isLocationEnabled] is
    true and [locationError] is null; when one is rejected, [locationError]
    is the message of the rejection, [isLocationEnabled] is false and the
    current location is the one before the call. *)
Theorem getCurrentLocation_state_machine
  (kakaoLoaded : bool) (br : Browser) (st : HookState) :
  let pending := stateAfter (beginRequest st) in
  let run := getCurrentLocation false kakaoLoaded br st in
  let final := stateAfter run in
  (isLoading pending = true
   /\ locationError pending = None
   /\ currentLocation pending = currentLocation st
   /\ isLocationEnabled pending = isLocationEnabled st)
  /\ final = stateAfter (settleRequest kakaoLoaded br pending)
  /\ settledAs run = Fulfilled tt
  /\ isLoading final = false
  /\ match settledAs (locate kakaoLoaded br pending) with
     | Fulfilled coords =>
         currentLocation final = Some coords
         /\ isLocationEnabled final = true
         /\ locationError final = None
     | Rejected failure =>
         exists message,
           failure = ErrorObject message
           /\ locationError final = Some message
           /\ isLocationEnabled final = false
           /\ currentLocation final = currentLocation st
     end.
Proof.
  cbv zeta. split; [repeat split |].
  split.
  - unfold getCurrentLocation, bind, stateAfter. simpl.
    destruct (settleRequest kakaoLoaded br _) as [[r st2] cs2]. reflexivity.
  - exact (request_outcome kakaoLoaded br st).
Qed.

(** As long as the manager has answered [false] since the hook mounted: with
    no current location the hook reports a null distance and
    [isWithinRange] false.  There is no current location when the hook has
    just mounted, nor after a request that failed in a state without one. *)
Theorem null_location_never_in_range :
  (forall (props : UseLocationAuthProps) (st : HookState),
     reachable false st ->
     currentLocation st = None ->
     let result := fst (useLocationAuth false props st) in
     r_distance result = None /\ r_isWithinRange result = false)
  /\ currentLocation mounted = None
  /\ (forall (kakaoLoaded : bool) (br : Browser) (st : HookState)
        (failure : Thrown),
        currentLocation st = None ->
        settledAs (locate kakaoLoaded br (stateAfter (beginRequest st)))
        = Rejected failure ->
        currentLocation
          (stateAfter (getCurrentLocation false kakaoLoaded br st)) = None).
Proof.
  split; [| split; [reflexivity |]].
  - intros props st Hreach Hcur result.
    assert (Hd : distanceOf props st = None).
    { unfold distanceOf. rewrite Hcur. reflexivity. }
    split.
    + subst result. unfold useLocationAuth. destruct (useMemo _ _ _). simpl. exact Hd.
    + subst result.
      rewrite render_within by (apply reachable_coherent; exact Hreach).
      rewrite Hd. reflexivity.
  - intros kakaoLoaded br st failure Hcur Hfail.
    pose proof (request_outcome kakaoLoaded br st) as H.
    cbv zeta in H. destruct H as (_ & _ & H).
    rewrite Hfail in H. destruct H as (message & _ & _ & _ & Hkeep).
    rewrite Hkeep. exact Hcur.
Qed.

Lemma null_location_never_in_range_witness :
  (reachable false mounted
   /\ currentLocation mounted = None
   /\ r_isWithinRange (fst (useLocationAuth false (mkProps origin None) mounted))
      = false)
  /\ currentLocation
       (stateAfter (getCurrentLocation false false noGeolocation mounted))
     = None.
Proof.
  split.
  - split; [apply reachable_mounted |]. split; [reflexivity |].
    exact (proj2 (proj1 null_location_never_in_range
                    (mkProps origin None) mounted
                    (reachable_mounted false) eq_refl)).
  - exact (proj2 (proj2 null_location_never_in_range)
             false noGeolocation mounted (ErrorObject msgKakaoScript)
             eq_refl eq_refl).
Defined.

(** One degree north of the target, with the default radius and the bypass
    off, the hook reports out of range. *)
Example one_degree_north_not_within_range :
  r_isWithinRange
    (fst (useLocationAuth false (mkProps origin None)
            (stateAfter (onWatchedPosition false noGeolocation 1 0 mounted))))
  = false.
Proof.
  unfold useLocationAuth, distanceOf, radiusOf. simpl.
  unfold leNumber.
  destruct (Rle_dec _ _) as [Hle | _]; [| reflexivity].
  pose proof one_degree_north_is_out_of_range. unfold origin in *. lra.
Qed.

(** *** More on the hook *)

Lemma sameNumber_refl (x : R) : sameNumber x x = true.
Proof. unfold sameNumber. destruct (Req_dec_T x x); [reflexivity | contradiction]. Qed.

Lemma sameDeps_refl (d : Deps) : sameDeps d d = true.
Proof.
  destruct d as [[x |] r]; unfold sameDeps; simpl;
    rewrite ?sameNumber_refl; reflexivity.
Qed.

Lemma useMemo_again (cell : MemoCell) (compute compute' : unit -> bool)
  (deps : Deps) :
  useMemo (snd (useMemo cell compute deps)) compute' deps
  = useMemo cell compute deps.
Proof.
  unfold useMemo.
  destruct cell as [[deps0 v0] |].
  - destruct (sameDeps deps0 deps) eqn:Hs; simpl.
    + rewrite Hs. reflexivity.
    + rewrite sameDeps_refl. reflexivity.
  - simpl. rewrite sameDeps_refl. reflexivity.
Qed.

(** X5.  A second call of the hook body with the same props, nothing having
    happened to the state in between, returns what the first call returned
    and leaves the state as it is, whatever the manager answers at either
    call: [isWithinRange] comes from the memo cell. *)
Theorem second_render_serves_memo
  (bypass1 bypass2 : bool) (props : UseLocationAuthProps) (st : HookState) :
  let first := useLocationAuth bypass1 props st in
  useLocationAuth bypass2 props (snd first) = first.
Proof.
  cbv zeta. unfold useLocationAuth.
  pose proof (useMemo_again (withinRangeMemo st)
                (withinRangeBody bypass1 (distanceOf props st) (radiusOf props))
                (withinRangeBody bypass2 (distanceOf props st) (radiusOf props))
                (distanceOf props st, radiusOf props)) as H.
  destruct (useMemo (withinRangeMemo st) _ _) as [within cell] eqn:Hfirst.
  simpl in *.
  change (distanceOf props (setWithinRangeMemo cell st))
    with (distanceOf props st).
  rewrite H. reflexivity.
Qed.

(** Rendering leaves the [useState] cells alone. *)
Lemma useLocationAuth_cells (bypass : bool) (props : UseLocationAuthProps)
  (st : HookState) :
  let st' := snd (useLocationAuth bypass props st) in
  currentLocation st' = currentLocation st
  /\ locationError st' = locationError st
  /\ isLocationEnabled st' = isLocationEnabled st
  /\ isLoading st' = isLoading st
  /\ isKakaoLoaded st' = isKakaoLoaded st.
Proof.
  cbv zeta. unfold useLocationAuth. destruct (useMemo _ _ _).
  repeat split.
Qed.

Ltac step_cases b Hstep :=
  destruct Hstep as
    [props st | br st | st Hb | st Hb | kl br st Hb | kl br la lo st];
  [ pose proof (useLocationAuth_cells b props st) as (E1 & E2 & E3 & E4 & E5);
    cbv zeta in *; rewrite ?E1, ?E2, ?E3, ?E4, ?E5
  | unfold loadKakaoMaps;
    destruct (kakaoMaps br); simpl;
    [| destruct (sdkScript br) as [[|] |]; simpl]
  | simpl
  | simpl
  | unfold settleRequest, getCurrentLocationWithKakao, loadKakaoMaps,
      verifyWithKakao;
    destruct kl; simpl;
    destruct (kakaoMaps br); simpl;
    destruct (sdkScript br) as [[|] |]; simpl;
    destruct (geolocation br) as [geo |]; simpl;
    try destruct (geo requestOptions) as [la lo acc | code]; simpl;
    destruct (kakaoServices br); simpl
  | unfold onWatchedPosition, verifyWithKakao;
    destruct kl; simpl; destruct (kakaoServices br); simpl ].

Lemma reachable_bypass_quiet (st : HookState) :
  reachable true st -> locationError st = None /\ isLoading st = false.
Proof.
  induction 1 as [| st st' _ [IHe IHl] Hstep]; [split; reflexivity |].
  step_cases true Hstep; try discriminate; split; assumption.
Qed.

Lemma reachable_status (bypass : bool) (st : HookState) :
  reachable bypass st ->
  (isLocationEnabled st = true -> currentLocation st <> None)
  /\ (locationError st <> None -> isLocationEnabled st = false).
Proof.
  induction 1 as [| st st' Hreach [IHk IHe] Hstep].
  - split; [discriminate | intros H; contradiction H; reflexivity].
  - assert (Hquiet : bypass = true -> locationError st = None).
    { intros ->. apply (reachable_bypass_quiet st Hreach). }
    step_cases bypass Hstep;
      (split; [intros He | intros Hne]);
      first [ discriminate
            | assumption
            | reflexivity
            | apply IHk; assumption
            | apply IHe; assumption
            | exfalso; apply Hne; reflexivity
            | exfalso; apply Hne; apply Hquiet; assumption ].
Qed.

(** X7.  A hook that lives with the bypass on never reports an error and
    never reports loading. *)
Theorem bypass_reports_no_error_no_loading
  (props : UseLocationAuthProps) (st : HookState) :
  reachable true st ->
  let result := fst (useLocationAuth true props st) in
  r_locationError result = None /\ r_isLoading result = false.
Proof.
  intros Hreach. cbv zeta.
  pose proof (reachable_bypass_quiet st Hreach) as [He Hl].
  unfold useLocationAuth. destruct (useMemo _ _ _) as [within cell]. simpl.
  split; assumption.
Qed.

Lemma bypass_reports_no_error_no_loading_witness :
  reachable true bypassed
  /\ r_locationError (fst (useLocationAuth true (mkProps origin None) bypassed))
     = None.
Proof.
  split; [exact bypassed_reachable |].
  exact (proj1 (bypass_reports_no_error_no_loading (mkProps origin None)
                  bypassed bypassed_reachable)).
Defined.

(** X8.  With the bypass off, a callback that closed over
    [isKakaoLoaded = false] loads the SDK first; when the SDK is absent and
    its script does not bring it, the request ends with the SDK's message
    as [locationError], the current location untouched, and no position
    request made, whatever [navigator.geolocation] would have answered. *)
Theorem sdk_failure_blocks_geolocation (br : Browser) (st : HookState) :
  kakaoMaps br = false ->
  sdkScript br <> ScriptLoaded true ->
  let run := getCurrentLocation false false br st in
  (forall options, ~ In (GetCurrentPosition options) (callsOf run))
  /\ (locationError (stateAfter run) = Some msgKakaoApi
      \/ locationError (stateAfter run) = Some msgKakaoScript)
  /\ isLocationEnabled (stateAfter run) = false
  /\ currentLocation (stateAfter run) = currentLocation st.
Proof.
  intros Hmaps Hscript. cbv zeta.
  unfold getCurrentLocation, settleRequest, beginRequest, loadKakaoMaps.
  rewrite Hmaps.
  destruct (sdkScript br) as [[|] |]; [contradiction Hscript; reflexivity | |];
    simpl; (split; [intros options [H | []]; discriminate |]);
    repeat split; auto.
Qed.

Lemma sdk_failure_blocks_geolocation_witness :
  kakaoMaps (sdkAnswering false ScriptError) = false
  /\ sdkScript (sdkAnswering false ScriptError) <> ScriptLoaded true
  /\ locationError
       (stateAfter
          (getCurrentLocation false false (sdkAnswering false ScriptError)
             mounted))
     = Some msgKakaoScript.
Proof.
  assert (H : sdkScript (sdkAnswering false ScriptError) <> ScriptLoaded true)
    by discriminate.
  split; [reflexivity |]. split; [exact H |].
  destruct (proj1 (proj2 (sdk_failure_blocks_geolocation
                            (sdkAnswering false ScriptError) mounted
                            eq_refl H))) as [Hapi | Hs].
  - discriminate Hapi.
  - exact Hs.
Defined.

(** X9.  [coord2Address] is only called when the SDK was loaded and its
    services are there, and only for the position the promise is fulfilled
    with, longitude first. *)
Theorem address_check_only_for_returned_position
  (kakaoLoaded : bool) (br : Browser) (st : HookState) (x y : R) :
  let run := getCurrentLocationWithKakao kakaoLoaded br st in
  In (Coord2Address x y) (callsOf run) ->
  kakaoLoaded = true /\ kakaoServices br = true
  /\ settledAs run = Fulfilled (mkCoordinates y x).
Proof.
  cbv zeta. unfold getCurrentLocationWithKakao, verifyWithKakao.
  destruct (geolocation br) as [geo |]; simpl; [| contradiction].
  destruct (geo requestOptions) as [la lo acc | code]; simpl;
    destruct kakaoLoaded; simpl; destruct (kakaoServices br); simpl;
    intros Hin; repeat (destruct Hin as [Hin | Hin]; try discriminate);
    try contradiction.
  injection Hin as -> ->. repeat split.
Qed.

Lemma address_check_only_for_returned_position_witness :
  In (Coord2Address 129 35)
    (callsOf (getCurrentLocationWithKakao true (sdkAnswering true ScriptError)
                mounted))
  /\ settledAs (getCurrentLocationWithKakao true
                  (sdkAnswering true ScriptError) mounted)
     = Fulfilled (mkCoordinates 35 129).
Proof.
  assert (H : In (Coord2Address 129 35)
                (callsOf (getCurrentLocationWithKakao true
                            (sdkAnswering true ScriptError) mounted))).
  { simpl. right. left. reflexivity. }
  split; [exact H |].
  exact (proj2 (proj2 (address_check_only_for_returned_position true
                         (sdkAnswering true ScriptError) mounted 129 35 H))).
Defined.

(** X10.  One call of [getCurrentLocation] makes at most one position
    request and inserts the SDK script at most once; it inserts none when
    the callback saw the SDK loaded, and asks for no position without
    [navigator.geolocation]. *)
Theorem at_most_one_request (bypass kakaoLoaded : bool) (br : Browser)
  (st : HookState) :
  let calls := callsOf (getCurrentLocation bypass kakaoLoaded br st) in
  (List.length (filter isGeoRequest calls) <= 1)%nat
  /\ (List.length (filter isSdkAppend calls) <= 1)%nat
  /\ (kakaoLoaded = true -> filter isSdkAppend calls = [])
  /\ (geolocation br = None -> filter isGeoRequest calls = []).
Proof.
  cbv zeta. destruct bypass.
  - simpl. repeat split; auto.
  - run_cases kakaoLoaded br; repeat split; auto; try discriminate.
Qed.

Lemma at_most_one_request_witness :
  geolocation noGeolocation = None
  /\ filter isGeoRequest
       (callsOf (getCurrentLocation false true noGeolocation mounted)) = []
  /\ filter isSdkAppend
       (callsOf (getCurrentLocation false true noGeolocation mounted)) = [].
Proof.
  pose proof (at_most_one_request false true noGeolocation mounted) as H.
  cbv zeta in H. destruct H as (_ & _ & Hsdk & Hgeo).
  split; [reflexivity |]. split; [exact (Hgeo eq_refl) | exact (Hsdk eq_refl)].
Defined.

Lemma getCurrentLocation_phases (kakaoLoaded : bool) (br : Browser)
  (st : HookState) :
  stateAfter (getCurrentLocation false kakaoLoaded br st)
  = stateAfter (settleRequest kakaoLoaded br (stateAfter (beginRequest st))).
Proof.
  unfold getCurrentLocation, bind, stateAfter. simpl.
  destruct (settleRequest kakaoLoaded br _) as [[r st2] cs2]. reflexivity.
Qed.

Lemma getCurrentLocation_reachable (kakaoLoaded : bool) (br : Browser)
  (st : HookState) :
  reachable false st ->
  reachable false (stateAfter (getCurrentLocation false kakaoLoaded br st)).
Proof.
  intros Hreach. rewrite getCurrentLocation_phases.
  eapply reachable_step; [| apply step_settleRequest; reflexivity].
  eapply reachable_step; [exact Hreach | apply step_beginRequest; reflexivity].
Qed.

(** X11.  A failed request keeps the current location, so a hook that was
    within range stays within range after it, while it reports
    [isLocationEnabled] false and an error. *)
Theorem in_range_survives_failed_request
  (props : UseLocationAuthProps) (cur : Coordinates)
  (kakaoLoaded : bool) (br : Browser) (st : HookState) (failure : Thrown) :
  reachable false st ->
  currentLocation st = Some cur ->
  (calculateDistance cur (targetLocation props) <= radiusOf props)%R ->
  settledAs (locate kakaoLoaded br (stateAfter (beginRequest st)))
  = Rejected failure ->
  let final := stateAfter (getCurrentLocation false kakaoLoaded br st) in
  let result := fst (useLocationAuth false props final) in
  r_isWithinRange result = true
  /\ r_isLocationEnabled result = false
  /\ r_locationError result <> None.
Proof.
  intros Hreach Hcur Hle Hfail. cbv zeta.
  pose proof (request_outcome kakaoLoaded br st) as H.
  cbv zeta in H. destruct H as (_ & _ & H). rewrite Hfail in H.
  destruct H as (message & _ & Herr & Hen & Hkeep).
  pose proof (getCurrentLocation_reachable kakaoLoaded br st Hreach) as Hfinal.
  set (final := stateAfter (getCurrentLocation false kakaoLoaded br st)) in *.
  split.
  - rewrite render_within by (apply reachable_coherent; exact Hfinal).
    unfold distanceOf. rewrite Hkeep, Hcur. simpl.
    apply leNumber_true. exact Hle.
  - unfold useLocationAuth. destruct (useMemo _ _ _). simpl.
    split; [exact Hen | rewrite Herr; discriminate].
Qed.

Lemma in_range_survives_failed_request_witness :
  reachable false atOrigin
  /\ currentLocation atOrigin = Some origin
  /\ (calculateDistance origin origin <= 300)%R
  /\ r_isWithinRange
       (fst (useLocationAuth false (mkProps origin None)
               (stateAfter
                  (getCurrentLocation false true noGeolocation atOrigin))))
     = true.
Proof.
  assert (Hle : (calculateDistance origin (targetLocation (mkProps origin None))
                 <= radiusOf (mkProps origin None))%R).
  { simpl. rewrite calculateDistance_refl. unfold radiusOf. simpl. lra. }
  split; [exact (atOrigin_reachable false) |]. split; [reflexivity |].
  split; [exact Hle |].
  exact (proj1 (in_range_survives_failed_request (mkProps origin None) origin
                  true noGeolocation atOrigin (ErrorObject msgUnsupported)
                  (atOrigin_reachable false) eq_refl Hle eq_refl)).
Defined.

(** *** A manager whose answer changes

    The memo of [isWithinRange] is keyed on distance and radius alone, while
    the memoised function reads the manager.  A cell filled under one
    answer is served under the other. *)

Lemma reachable_live (bypass : bool) (st : HookState) :
  reachable bypass st -> live st.
Proof.
  induction 1 as [| st st' _ IH Hstep]; [apply live_mounted |].
  exact (live_step bypass st st' IH Hstep).
Qed.

Lemma renderedWithBypass_live props : live (renderedWithBypass props).
Proof.
  eapply live_step; [apply live_mounted | apply (step_render true)].
Qed.

Lemma renderedWithoutBypass_live props : live (renderedWithoutBypass props).
Proof.
  eapply live_step; [apply live_mounted | apply (step_render false)].
Qed.

Lemma bypassedAndRendered_live props : live (bypassedAndRendered props).
Proof.
  eapply live_step; [| apply (step_render true)].
  eapply live_step; [apply renderedWithBypass_live |].
  apply (step_bypassRequest true). reflexivity.
Qed.

Lemma bypass_far_from_target :
  (300 < calculateDistance bypassCoordinates oneDegreeSouth)%R.
Proof.
  rewrite calculateDistance_sym. unfold bypassCoordinates, oneDegreeSouth.
  rewrite calculateDistance_meridian by lra.
  unfold toRadians. pose proof PI2_3_2. lra.
Qed.

Lemma render_twice (bypass1 bypass2 : bool) (props : UseLocationAuthProps)
  (st : HookState) :
  useLocationAuth bypass2 props (snd (useLocationAuth bypass1 props st))
  = useLocationAuth bypass1 props st.
Proof.
  unfold useLocationAuth.
  pose proof (useMemo_again (withinRangeMemo st)
                (withinRangeBody bypass1 (distanceOf props st) (radiusOf props))
                (withinRangeBody bypass2 (distanceOf props st) (radiusOf props))
                (distanceOf props st, radiusOf props)) as H.
  destruct (useMemo (withinRangeMemo st) _ _) as [within cell] eqn:Hfirst.
  simpl in *.
  change (distanceOf props (setWithinRangeMemo cell st))
    with (distanceOf props st).
  rewrite H. reflexivity.
Qed.

(** C1.  A hook is rendered while the manager answers [true], takes the
    bypass coordinates from [getCurrentLocation] and is rendered again; the
    target, with the default radius, lies one degree south.  The manager
    then answers [false]: the hook has a current location, reports a
    distance of more than 300, and still reports [isWithinRange] true, so
    "true exactly when the distance is at most the radius" fails. *)
Theorem stale_memo_in_range_beyond_radius :
  let st := bypassedAndRendered farTarget in
  let result := fst (useLocationAuth false farTarget st) in
  live st
  /\ currentLocation st = Some bypassCoordinates
  /\ r_distance result = Some (calculateDistance bypassCoordinates oneDegreeSouth)
  /\ (300 < calculateDistance bypassCoordinates oneDegreeSouth)%R
  /\ r_isWithinRange result = true
  /\ ~ (r_isWithinRange result = true
        <-> (calculateDistance bypassCoordinates oneDegreeSouth <= 300)%R).
Proof.
  cbv zeta.
  assert (Hres : r_isWithinRange
                   (fst (useLocationAuth false farTarget
                           (bypassedAndRendered farTarget))) = true
                 /\ r_distance
                      (fst (useLocationAuth false farTarget
                              (bypassedAndRendered farTarget)))
                    = Some (calculateDistance bypassCoordinates oneDegreeSouth)).
  { unfold bypassedAndRendered. rewrite render_twice.
    set (st := stateAfter (bypassRequest (renderedWithBypass farTarget))).
    assert (Hcell : withinRangeMemo st = Some ((None, 300%R), true))
      by reflexivity.
    unfold useLocationAuth. rewrite Hcell. simpl. split; reflexivity. }
  destruct Hres as [Hw Hd].
  pose proof bypass_far_from_target as Hfar.
  split; [apply bypassedAndRendered_live |].
  split; [reflexivity |]. split; [exact Hd |]. split; [exact Hfar |].
  split; [exact Hw |].
  intros [Hiff _]. specialize (Hiff Hw). lra.
Qed.

(** C3.  A hook is mounted and rendered while the manager answers [false].
    The manager then answers [true]: the next render, for the same props,
    reports [isWithinRange] false although the bypass is on. *)
Theorem stale_memo_out_of_range_under_bypass (props : UseLocationAuthProps) :
  let st := renderedWithoutBypass props in
  let result := fst (useLocationAuth true props st) in
  live st /\ r_isWithinRange result = false.
Proof.
  cbv zeta. split; [apply renderedWithoutBypass_live |].
  unfold renderedWithoutBypass.
  rewrite (render_twice false true props mounted).
  reflexivity.
Qed.

(** C8.  A hook is mounted and rendered while the manager answers [true].
    The manager then answers [false]: the next render, for the same props,
    has no current location and a null distance, and reports
    [isWithinRange] true. *)
Theorem stale_memo_in_range_without_location (props : UseLocationAuthProps) :
  let st := renderedWithBypass props in
  let result := fst (useLocationAuth false props st) in
  live st
  /\ currentLocation st = None
  /\ r_distance result = None
  /\ r_isWithinRange result = true.
Proof.
  cbv zeta. split; [apply renderedWithBypass_live |].
  unfold renderedWithBypass.
  rewrite (render_twice true false props mounted).
  repeat split.
Qed.

Lemma live_enabled_located (st : HookState) :
  live st -> isLocationEnabled st = true -> currentLocation st <> None.
Proof.
  induction 1 as [| bypass st st' _ IH Hstep]; [discriminate |].
  step_cases bypass Hstep; intros He;
    first [ discriminate | apply IH; assumption ].
Qed.

(** X6.  Whatever the manager answers along the way, a hook that reports
    [isLocationEnabled] true reports a current location and a distance.
    In a life during which the manager's answer does not change, a hook
    that reports a [locationError] reports [isLocationEnabled] false. *)
Theorem status_report_invariants :
  (forall (bypass : bool) (props : UseLocationAuthProps) (st : HookState),
     live st ->
     let result := fst (useLocationAuth bypass props st) in
     r_isLocationEnabled result = true ->
     r_currentLocation result <> None /\ r_distance result <> None)
  /\ (forall (bypass : bool) (props : UseLocationAuthProps) (st : HookState),
        reachable bypass st ->
        let result := fst (useLocationAuth bypass props st) in
        r_locationError result <> None ->
        r_isLocationEnabled result = false).
Proof.
  split.
  - intros bypass props st Hlive. cbv zeta.
    pose proof (live_enabled_located st Hlive) as Hk.
    unfold useLocationAuth. destruct (useMemo _ _ _) as [within cell]. simpl.
    intros Hen. specialize (Hk Hen). split; [exact Hk |].
    unfold distanceOf.
    destruct (currentLocation st); [discriminate | contradiction].
  - intros bypass props st Hreach. cbv zeta.
    pose proof (reachable_status bypass st Hreach) as [_ He].
    unfold useLocationAuth. destruct (useMemo _ _ _) as [within cell]. simpl.
    exact He.
Qed.

Lemma status_report_invariants_witness :
  (live bypassed
   /\ r_isLocationEnabled (fst (useLocationAuth true nearTarget bypassed)) = true
   /\ r_currentLocation (fst (useLocationAuth true nearTarget bypassed))
      <> None)
  /\ (reachable false failedOnce
      /\ r_locationError (fst (useLocationAuth false nearTarget failedOnce))
         <> None
      /\ r_isLocationEnabled (fst (useLocationAuth false nearTarget failedOnce))
         = false).
Proof.
  assert (Hlive : live bypassed)
    by exact (reachable_live true bypassed bypassed_reachable).
  assert (Hreach : reachable false failedOnce)
    by exact (getCurrentLocation_reachable true noGeolocation mounted
                (reachable_mounted false)).
  assert (Herr : r_locationError
                   (fst (useLocationAuth false nearTarget failedOnce)) <> None)
    by discriminate.
  split.
  - split; [exact Hlive |]. split; [reflexivity |].
    exact (proj1 (proj1 status_report_invariants true nearTarget bypassed
                    Hlive eq_refl)).
  - split; [exact Hreach |]. split; [exact Herr |].
    exact (proj2 status_report_invariants false nearTarget failedOnce
             Hreach Herr).
Defined.

(** X12.  Once the browser has answered what the mount effect asks of it
    (the SDK script, the position request), the effect, run after the first
    render with the bypass off, leaves [isLoading] false and the hook
    either granted (a current location, enabled, no error) or denied (no
    current location, not enabled, an error).  With the bypass on it leaves
    the bypass coordinates, enabled, no error, and has made no position
    request. *)
Theorem mount_effect_outcome (props : UseLocationAuthProps)
  (atLoad atRequest : Browser) :
  (let rendered := snd (useLocationAuth false props mounted) in
   let run := initializeLocation false atLoad atRequest rendered in
   let final := stateAfter run in
   isLoading final = false
   /\ ((exists coords,
          currentLocation final = Some coords
          /\ isLocationEnabled final = true
          /\ locationError final = None)
       \/ (currentLocation final = None
           /\ isLocationEnabled final = false
           /\ exists message, locationError final = Some message)))
  /\ (let rendered := snd (useLocationAuth true props mounted) in
      let run := initializeLocation true atLoad atRequest rendered in
      let final := stateAfter run in
      currentLocation final = Some bypassCoordinates
      /\ isLocationEnabled final = true
      /\ locationError final = None
      /\ filter isGeoRequest (callsOf run) = []).
Proof.
  cbv zeta. split.
  - unfold initializeLocation, loadKakaoMaps.
    destruct (kakaoMaps atLoad); simpl;
      [| destruct (sdkScript atLoad) as [[|] |]; simpl];
      run_cases false atRequest; repeat split;
      first [ solve [left; eexists; repeat split; reflexivity]
            | solve [right; repeat split; eexists; reflexivity] ].
  - unfold initializeLocation, loadKakaoMaps.
    destruct (kakaoMaps atLoad); simpl;
      [| destruct (sdkScript atLoad) as [[|] |]; simpl]; repeat split.
Qed.

End HookFacts.

(** ** The list *)

Module SpotFacts.

Import Spots Samples.
Local Open Scope string_scope.
Local Open Scope nat_scope.
Local Open Scope list_scope.
Local Infix "+++" := String.append (at level 60, right associativity).

Lemma getCategoryIcon_is_icon (category : string) :
  exists icon, getCategoryIcon category = IconEl icon "w-4 h-4".
Proof.
  unfold getCategoryIcon.
  repeat match goal with
         | |- context [if ?b then _ else _] => destruct b
         end; eexists; reflexivity.
Qed.



Lemma filter_isCard_rendered (spots : list TouristSpot) :
  forall start,
    filter isCard (mapIndexed renderCard start spots)
    = mapIndexed renderCard start spots.
Proof.
  induction spots as [| spot rest IH]; intros start; simpl;
    [| rewrite IH]; reflexivity.
Qed.

Lemma cards_SpotList (spots : list TouristSpot) :
  cards (SpotList spots) = mapIndexed renderCard 0 spots.
Proof.
  unfold cards, SpotList, childrenOf.
  rewrite filter_app, filter_isCard_rendered.
  destruct (Nat.eqb (List.length spots) 0); simpl; apply app_nil_r.
Qed.

Ltac open_card spot :=
  unfold shows, renderCard, renderThumbnail, renderCoins, renderDistrict,
    renderCategory, renderVisitComplete, renderActions, renderCheckInButton;
  let icon := fresh "icon" in
  let Hicon := fresh "Hicon" in
  destruct (getCategoryIcon_is_icon (category spot)) as [icon Hicon];
  rewrite ?Hicon;
  destruct (String.eqb (image spot) placeholderImage); simpl.

Ltac find_node := repeat first [left; reflexivity | right].

Ltac each_node H :=
  repeat (destruct H as [H | H]; [subst; try reflexivity; try discriminate |]);
  try contradiction.



Lemma card_visited (index : nat) (spot : TouristSpot) :
  visited spot = true ->
  let card := renderCard index spot in
  shows card renderVisitComplete
  /\ forall node, shows card node -> isButton node = false.
Proof.
  intros Hv. cbv zeta. repeat split.
  - open_card spot; rewrite Hv; simpl; find_node.
  - intros node H. revert H. open_card spot; rewrite Hv; simpl; intros H;
      each_node H.
Qed.





(** C9.  For a visited spot [handleCheckInClick] navigates nowhere, and the
    card of such a spot has no button; in test mode the handler navigates
    nowhere when there is no test detail for the spot's id. *)
Theorem visited_spot_never_navigates
  (testModeManager : TestModeManager) (spot : TouristSpot) (index : nat) :
  (visited spot = true ->
     navigations (handleCheckInClick testModeManager spot) = []
     /\ forall node, shows (renderCard index spot) node -> isButton node = false)
  /\ (isTestMode testModeManager = true ->
      getTestSpotDetail testModeManager (id spot) = None ->
      navigations (handleCheckInClick testModeManager spot) = []).
Proof.
  split.
  - intros Hv. split.
    + unfold handleCheckInClick. rewrite Hv. reflexivity.
    + apply (card_visited index spot Hv).
  - intros Htest Hnone. unfold handleCheckInClick.
    rewrite Htest, Hnone. destruct (visited spot); reflexivity.
Qed.

Lemma visited_spot_never_navigates_witness :
  (visited daewangam = true
   /\ navigations (handleCheckInClick noDetails daewangam) = [])
  /\ (isTestMode noDetails = true
      /\ getTestSpotDetail noDetails (id taehwa) = None
      /\ navigations (handleCheckInClick noDetails taehwa) = []).
Proof.
  split.
  - split; [reflexivity |].
    exact (proj1 (proj1 (visited_spot_never_navigates noDetails daewangam 0)
                    eq_refl)).
  - split; [reflexivity |]. split; [reflexivity |].
    exact (proj2 (visited_spot_never_navigates noDetails taehwa 0)
             eq_refl eq_refl).
Defined.

(** C6.  A check-in made within the allowed radius of the spot's
    coordinates marks the spot visited and adds the spot's coins to the
    user's coins. *)
Theorem checkIn_marks_visited_and_grants_coins
  (current spotLocation : Geo.Coordinates) (allowedRadius : R)
  (spot : TouristSpot) (wallet : Z) :
  (Geo.calculateDistance current spotLocation <= allowedRadius)%R ->
  let after := checkIn current spotLocation allowedRadius spot wallet in
  visited (fst after) = true
  /\ snd after = (wallet + coins spot)%Z
  /\ id (fst after) = id spot
  /\ coins (fst after) = coins spot.
Proof.
  intros Hwithin. cbv zeta. unfold checkIn.
  apply HookFacts.leNumber_true in Hwithin. rewrite Hwithin. repeat split.
Qed.

Lemma checkIn_marks_visited_and_grants_coins_witness :
  (Geo.calculateDistance origin origin <= 300)%R
  /\ visited (fst (checkIn origin origin 300 taehwa 120)) = true
  /\ snd (checkIn origin origin 300 taehwa 120) = 170%Z.
Proof.
  assert (H : (Geo.calculateDistance origin origin <= 300)%R).
  { rewrite GeoFacts.calculateDistance_refl. lra. }
  split; [exact H |].
  pose proof (checkIn_marks_visited_and_grants_coins
                origin origin 300 taehwa 120 H) as (Hv & Hw & _).
  split; [exact Hv | exact Hw].
Defined.

(** *** The handler on the sample spots *)

Example encodeURIComponent_sample :
  encodeURIComponent "spot 2/a_b" = "spot%202%2Fa_b".
Proof. reflexivity. Qed.

Example click_outside_test_mode :
  handleCheckInClick (mkManager false (fun _ => None)) taehwa
  = [PreventDefault; StopPropagation;
     Navigate "/checkin?contentId=126078&contentType=12&fromSpotId=126078"].
Proof. reflexivity. Qed.

Example click_in_test_mode :
  navigations
    (handleCheckInClick
       (mkManager true (fun _ => Some (mkTestSpot "T1" "14"))) taehwa)
  = ["/checkin?contentId=T1&contentType=14&fromSpotId=126078"].
Proof. reflexivity. Qed.

(** *** More on the handler and the list *)

Import Ascii.

Ltac all_ascii c :=
  destruct c as [[|] [|] [|] [|] [|] [|] [|] [|]].

Lemma hexDigit_unreserved (c : ascii) :
  isUnreserved (hexDigit (N_of_ascii c / 16)) = true
  /\ isUnreserved (hexDigit (N_of_ascii c mod 16)) = true.
Proof. all_ascii c; split; vm_compute; reflexivity. Qed.

Lemma hexDigit_not_percent (c : ascii) :
  Ascii.eqb (hexDigit (N_of_ascii c / 16)) "%" = false.
Proof. all_ascii c; vm_compute; reflexivity. Qed.

Lemma hexValue_hexDigit (c : ascii) :
  ascii_of_N (16 * hexValue (hexDigit (N_of_ascii c / 16))
              + hexValue (hexDigit (N_of_ascii c mod 16))) = c.
Proof. all_ascii c; vm_compute; reflexivity. Qed.

Lemma unreserved_not_percent (c : ascii) :
  isUnreserved c = true -> Ascii.eqb c "%" = false.
Proof.
  intros Hu. destruct (Ascii.eqb_spec c "%") as [-> | _]; [| reflexivity].
  vm_compute in Hu. discriminate.
Qed.

Lemma percentDecode_encodeURIComponent (s : string) :
  percentDecode (encodeURIComponent s) = s.
Proof.
  induction s as [| c rest IH]; [reflexivity |].
  cbn [encodeURIComponent].
  destruct (isUnreserved c) eqn:Hu.
  - cbn [percentDecode]. rewrite (unreserved_not_percent c Hu), IH.
    reflexivity.
  - cbn [percentDecode]. rewrite Ascii.eqb_refl, hexValue_hexDigit, IH.
    reflexivity.
Qed.

Lemma encodeURIComponent_injective (s1 s2 : string) :
  encodeURIComponent s1 = encodeURIComponent s2 -> s1 = s2.
Proof.
  intros H.
  rewrite <- (percentDecode_encodeURIComponent s1),
          <- (percentDecode_encodeURIComponent s2), H.
  reflexivity.
Qed.

Lemma encodeURIComponent_alphabet (s : string) :
  allChars (fun c => isUnreserved c || Ascii.eqb c "%")
    (encodeURIComponent s) = true
  /\ forall c, In c (list_ascii_of_string (encodeURIComponent s)) ->
       c <> "&"%char /\ c <> "="%char /\ c <> "?"%char /\ c <> "#"%char
       /\ c <> "/"%char /\ c <> " "%char /\ c <> "+"%char.
Proof.
  assert (Hall : allChars (fun c => isUnreserved c || Ascii.eqb c "%")
                   (encodeURIComponent s) = true).
  { induction s as [| c rest IH]; [reflexivity |].
    cbn [encodeURIComponent].
    destruct (isUnreserved c) eqn:Hu.
    - cbn [allChars]. rewrite Hu, IH. reflexivity.
    - destruct (hexDigit_unreserved c) as [Hh Hl].
      cbn [allChars]. rewrite Hh, Hl, IH. reflexivity. }
  split; [exact Hall |].
  revert Hall. generalize (encodeURIComponent s) as out.
  induction out as [| d rest IH]; intros Hall c Hin; [contradiction |].
  cbn [allChars] in Hall. apply andb_prop in Hall. destruct Hall as [Hd Hrest].
  destruct Hin as [<- | Hin]; [| exact (IH Hrest c Hin)].
  repeat split; intros ->; vm_compute in Hd; discriminate.
Qed.

Lemma encodeURIComponent_unreserved_identity (s : string) :
  allChars isUnreserved s = true -> encodeURIComponent s = s.
Proof.
  induction s as [| c rest IH]; [reflexivity |].
  cbn [allChars encodeURIComponent]. intros H.
  apply andb_prop in H. destruct H as [Hc Hrest].
  rewrite Hc, (IH Hrest). reflexivity.
Qed.

(** X13.  A click always prevents the default action and stops the
    propagation first.  It navigates at most once, and only when the spot
    is not visited and, in test mode, a test detail exists for its id.  The
    URL carries the spot's own id and type outside test mode, the detail's
    content id and content type in test mode, and in both cases the encoded
    id of the spot as [fromSpotId]. *)
Theorem click_navigates_at_most_once
  (testModeManager : TestModeManager) (spot : TouristSpot) :
  let effects := handleCheckInClick testModeManager spot in
  firstn 2 effects = [PreventDefault; StopPropagation]
  /\ List.length (navigations effects) <= 1
  /\ (navigations effects <> [] ->
      visited spot = false
      /\ (isTestMode testModeManager = false
          \/ getTestSpotDetail testModeManager (id spot) <> None))
  /\ forall url, In url (navigations effects) ->
       exists contentId contentType,
         url = "/checkin?contentId=" +++ contentId +++ "&contentType="
               +++ contentType +++ "&fromSpotId="
               +++ encodeURIComponent (id spot)
         /\ (isTestMode testModeManager = false ->
             contentId = id spot /\ contentType = type spot)
         /\ (isTestMode testModeManager = true ->
             exists detail,
               getTestSpotDetail testModeManager (id spot) = Some detail
               /\ contentId = contentid detail
               /\ contentType = contenttypeid detail).
Proof.
  cbv zeta. unfold handleCheckInClick.
  destruct (visited spot); simpl.
  - repeat split; try lia; try tauto;
      try (intros H; contradiction H; reflexivity).
  - destruct (isTestMode testModeManager); simpl.
    + destruct (getTestSpotDetail testModeManager (id spot)) as [detail |];
        simpl; (split; [reflexivity |]); (split; [lia |]); split.
      * intros _. split; [reflexivity | right; discriminate].
      * intros url [<- | []]. exists (contentid detail), (contenttypeid detail).
        split; [reflexivity |]. split; [discriminate |].
        intros _. exists detail. repeat split.
      * intros H. contradiction H. reflexivity.
      * intros url [].
    + (split; [reflexivity |]); (split; [lia |]); split.
      * intros _. split; [reflexivity | left; reflexivity].
      * intros url [<- | []]. exists (id spot), (type spot).
        split; [reflexivity |]. split; [intros _; split; reflexivity |].
        discriminate.
Qed.

Lemma click_navigates_at_most_once_witness :
  In "/checkin?contentId=126078&contentType=12&fromSpotId=126078"
    (navigations (handleCheckInClick (mkManager false (fun _ => None)) taehwa))
  /\ exists contentId contentType,
       "/checkin?contentId=126078&contentType=12&fromSpotId=126078"
       = "/checkin?contentId=" +++ contentId +++ "&contentType="
         +++ contentType +++ "&fromSpotId=" +++ encodeURIComponent (id taehwa).
Proof.
  assert (H : In "/checkin?contentId=126078&contentType=12&fromSpotId=126078"
                (navigations (handleCheckInClick
                                (mkManager false (fun _ => None)) taehwa))).
  { left. reflexivity. }
  split; [exact H |].
  destruct (proj2 (proj2 (proj2 (click_navigates_at_most_once
                                   (mkManager false (fun _ => None)) taehwa)))
              _ H) as (contentId & contentType & Hurl & _).
  exists contentId, contentType. exact Hurl.
Defined.

(** X15.  The icon tells the category: a category of the table shares its
    icon with no other string, and the map pin is the icon of exactly the
    strings outside the table. *)
Theorem icon_identifies_category (c1 c2 : string) :
  (In c1 knownCategories ->
   getCategoryIcon c1 = getCategoryIcon c2 -> c1 = c2)
  /\ (getCategoryIcon c1 = IconEl MapPin "w-4 h-4" <->
      ~ In c1 knownCategories).
Proof.
  split.
  - intros Hin. unfold knownCategories in Hin. simpl in Hin.
    repeat (destruct Hin as [<- | Hin]); try contradiction;
      unfold getCategoryIcon at 1; simpl; unfold getCategoryIcon;
      repeat match goal with
             | |- context [String.eqb c2 ?s] =>
                 destruct (String.eqb_spec c2 s); [subst c2; simpl |]
             end; intros H; try reflexivity; try discriminate H.
  - unfold getCategoryIcon, knownCategories.
    repeat match goal with
           | |- context [String.eqb c1 ?s] =>
               destruct (String.eqb_spec c1 s);
               [subst c1; split;
                [intros H; discriminate H
                | intros H; exfalso; apply H; simpl; tauto] |]
           end.
    split; [| reflexivity].
    intros _ Hin. simpl in Hin. intuition congruence.
Qed.

Lemma subnodes_Elem (tag : Tag) (attrs : Attrs) (children : list Node) :
  subnodes (Elem tag attrs children)
  = Elem tag attrs children :: flat_map subnodes children.
Proof.
  reflexivity.
Qed.

Lemma in_mapIndexed {A B : Type} (f : nat -> A -> B) (xs : list A) (y : B) :
  forall start, In y (mapIndexed f start xs) ->
    exists i x, nth_error xs i = Some x /\ y = f (start + i) x.
Proof.
  induction xs as [| x rest IH]; intros start Hin; [contradiction |].
  destruct Hin as [<- | Hin].
  - exists 0, x. rewrite Nat.add_0_r. split; reflexivity.
  - destruct (IH (S start) Hin) as (i & x' & Hnth & ->).
    exists (S i), x'. rewrite Nat.add_succ_r. split; [exact Hnth | reflexivity].
Qed.

(** The buttons of a card. *)
Lemma card_buttons (index : nat) (spot : TouristSpot) :
  filter isButton (subnodes (renderCard index spot))
  = if visited spot then [] else [renderCheckInButton spot].
Proof.
  open_card spot; destruct (visited spot); reflexivity.
Qed.

Lemma card_links (index : nat) (spot : TouristSpot) :
  filter isLink (subnodes (renderCard index spot))
  = if visited spot then []
    else [Link ("/spot/" +++ id spot)
            "flex-1 bg-gray-100 text-gray-700 py-2 px-4 rounded-lg text-center text-sm font-medium hover:bg-gray-200 transition-colors"
            [Text "상세보기"]].
Proof.
  open_card spot; destruct (visited spot); reflexivity.
Qed.

(** X16.  The card of a visited spot has no button and no link.  The card
    of a spot that is not visited has exactly one button, the one whose
    handler is bound to this spot, and exactly one link, to the detail page
    of this spot. *)
Theorem card_actions (index : nat) (spot : TouristSpot) :
  let card := renderCard index spot in
  (visited spot = true ->
     filter isButton (subnodes card) = []
     /\ filter isLink (subnodes card) = [])
  /\ (visited spot = false ->
      (exists cn children,
         filter isButton (subnodes card) = [Button spot cn children])
      /\ (exists cn children,
            filter isLink (subnodes card)
            = [Link ("/spot/" +++ id spot) cn children])).
Proof.
  cbv zeta. rewrite card_buttons, card_links. split; intros ->.
  - split; reflexivity.
  - split; eexists _, _; reflexivity.
Qed.

Lemma card_actions_witness :
  visited taehwa = false
  /\ exists cn children,
       filter isLink (subnodes (renderCard 0 taehwa))
       = [Link "/spot/126078" cn children].
Proof.
  split; [reflexivity |].
  exact (proj2 (proj2 (card_actions 0 taehwa) eq_refl)).
Defined.

Lemma NoDup_map_Some {A : Type} (xs : list A) :
  NoDup xs -> NoDup (map Some xs).
Proof.
  induction 1 as [| x xs Hnot _ IH]; simpl; constructor; [| exact IH].
  intros Hin. apply in_map_iff in Hin. destruct Hin as (y & Heq & Hy).
  injection Heq as ->. exact (Hnot Hy).
Qed.

Lemma keys_mapIndexed (spots : list TouristSpot) :
  forall start,
    map keyOf (mapIndexed renderCard start spots)
    = map (fun spot => Some (id spot)) spots.
Proof.
  induction spots as [| spot rest IH]; intros start; [reflexivity |].
  simpl. rewrite IH. reflexivity.
Qed.

(** X17.  The keys of the cards are the ids of the spots, in order; they
    are pairwise different when the ids are. *)
Theorem card_keys_are_spot_ids (spots : list TouristSpot) :
  map keyOf (cards (SpotList spots)) = map (fun spot => Some (id spot)) spots
  /\ (NoDup (map id spots) -> NoDup (map keyOf (cards (SpotList spots)))).
Proof.
  rewrite cards_SpotList, keys_mapIndexed. split; [reflexivity |].
  intros Hnd. rewrite <- (map_map id Some).
  apply NoDup_map_Some. exact Hnd.
Qed.

Lemma card_keys_are_spot_ids_witness :
  NoDup (map id [taehwa; daewangam])
  /\ NoDup (map keyOf (cards (SpotList [taehwa; daewangam]))).
Proof.
  assert (H : NoDup (map id [taehwa; daewangam])).
  { simpl. constructor; [intros [H | []]; discriminate H |].
    constructor; [intros [] | constructor]. }
  split; [exact H |].
  exact (proj2 (card_keys_are_spot_ids [taehwa; daewangam]) H).
Defined.

Lemma button_in_card (index : nat) (spot : TouristSpot) (node : Node) :
  In node (subnodes (renderCard index spot)) -> isButton node = true ->
  visited spot = false /\ node = renderCheckInButton spot.
Proof.
  intros Hin Hb.
  assert (Hf : In node (filter isButton (subnodes (renderCard index spot))))
    by (apply filter_In; split; assumption).
  rewrite card_buttons in Hf.
  destruct (visited spot); [contradiction |].
  destruct Hf as [<- | []]. split; reflexivity.
Qed.

(** X18.  Every button anywhere in the rendered list is bound to a spot of
    the list that is not visited, and outside test mode a click on it
    navigates nowhere but to the check-in of that spot. *)
Theorem every_button_checks_in_its_spot
  (testModeManager : TestModeManager) (spots : list TouristSpot)
  (target : TouristSpot) (cn : string) (children : list Node) :
  In (Button target cn children) (subnodes (SpotList spots)) ->
  In target spots
  /\ visited target = false
  /\ (isTestMode testModeManager = false ->
      forall url,
        In url (navigations (handleCheckInClick testModeManager target)) ->
        url = checkinUrl (id target) (type target) (id target)).
Proof.
  intros Hin. unfold SpotList in Hin. rewrite subnodes_Elem in Hin.
  destruct Hin as [Hin | Hin]; [discriminate |].
  rewrite flat_map_app in Hin. apply in_app_or in Hin.
  assert (Hcard : exists i spot, nth_error spots i = Some spot
                    /\ In (Button target cn children)
                         (subnodes (renderCard i spot))).
  { destruct Hin as [Hin | Hin].
    - apply in_flat_map in Hin. destruct Hin as (card & Hc & Hsub).
      apply in_mapIndexed in Hc. destruct Hc as (i & spot & Hnth & ->).
      exists i, spot. split; assumption.
    - exfalso. destruct (Nat.eqb (List.length spots) 0); simpl in Hin;
        [| contradiction].
      repeat (destruct Hin as [Hin | Hin]; try discriminate). contradiction. }
  destruct Hcard as (i & spot & Hnth & Hsub).
  destruct (button_in_card i spot _ Hsub eq_refl) as [Hv Heq].
  unfold renderCheckInButton in Heq. injection Heq as -> _ _.
  split; [exact (nth_error_In _ _ Hnth) |]. split; [exact Hv |].
  intros Htest url. unfold handleCheckInClick. rewrite Hv, Htest. simpl.
  intros [<- | []]. reflexivity.
Qed.

Lemma every_button_checks_in_its_spot_witness :
  In (renderCheckInButton taehwa) (subnodes (SpotList [taehwa; daewangam]))
  /\ In "/checkin?contentId=126078&contentType=12&fromSpotId=126078"
       (navigations
          (handleCheckInClick (mkManager false (fun _ => None)) taehwa))
  /\ "/checkin?contentId=126078&contentType=12&fromSpotId=126078"
     = checkinUrl (id taehwa) (type taehwa) (id taehwa).
Proof.
  assert (H : In (renderCheckInButton taehwa)
                (subnodes (SpotList [taehwa; daewangam]))).
  { vm_compute. repeat first [left; reflexivity | right]. }
  assert (Hurl : In "/checkin?contentId=126078&contentType=12&fromSpotId=126078"
                   (navigations
                      (handleCheckInClick (mkManager false (fun _ => None))
                         taehwa))).
  { left. reflexivity. }
  split; [exact H |]. split; [exact Hurl |].
  exact (proj2 (proj2 (every_button_checks_in_its_spot
                         (mkManager false (fun _ => None)) [taehwa; daewangam]
                         taehwa _ _ H)) eq_refl _ Hurl).
Defined.

Lemma append_assoc (a b c : string) : (a +++ b) +++ c = a +++ (b +++ c).
Proof.
  induction a as [| x a IH]; [reflexivity |]. simpl. rewrite IH. reflexivity.
Qed.

Lemma navigated_url (testModeManager : TestModeManager) (spot : TouristSpot)
  (url : string) :
  In url (navigations (handleCheckInClick testModeManager spot)) ->
  exists contentId contentType,
    url = checkinUrl contentId contentType (id spot).
Proof.
  unfold handleCheckInClick.
  destruct (visited spot); simpl; [contradiction |].
  destruct (isTestMode testModeManager); simpl.
  - destruct (getTestSpotDetail testModeManager (id spot)) as [detail |];
      simpl; [| contradiction].
    intros [<- | []]. eexists _, _. reflexivity.
  - intros [<- | []]. eexists _, _. reflexivity.
Qed.

(** X14.  Every URL a click navigates to ends with [&fromSpotId=] and the
    encoded id of the spot.  That value is made of unreserved characters
    and [%] only, so it holds no [&], [=], [#] or space; different ids give
    different values; and an id made of unreserved characters only is
    carried as it is. *)
Theorem fromSpotId_is_safe (testModeManager : TestModeManager)
  (spot : TouristSpot) :
  let value := encodeURIComponent (id spot) in
  (forall url,
     In url (navigations (handleCheckInClick testModeManager spot)) ->
     exists front, url = front +++ "&fromSpotId=" +++ value)
  /\ (forall c, In c (list_ascii_of_string value) ->
        (isUnreserved c = true \/ c = "%"%char)
        /\ c <> "&"%char /\ c <> "="%char /\ c <> "#"%char /\ c <> " "%char)
  /\ (forall other : TouristSpot,
        encodeURIComponent (id other) = value -> id other = id spot)
  /\ (allChars isUnreserved (id spot) = true -> value = id spot).
Proof.
  cbv zeta. split; [| split; [| split]].
  - intros url Hin.
    destruct (navigated_url testModeManager spot url Hin)
      as (contentId & contentType & ->).
    exists ("/checkin?contentId=" +++ contentId +++ "&contentType="
            +++ contentType).
    unfold checkinUrl. rewrite !append_assoc. reflexivity.
  - pose proof (proj1 (encodeURIComponent_alphabet (id spot))) as Hall.
    revert Hall. generalize (encodeURIComponent (id spot)) as out.
    induction out as [| d rest IH]; intros Hall c Hin; [contradiction |].
    cbn [allChars] in Hall. apply andb_prop in Hall.
    destruct Hall as [Hd Hrest].
    destruct Hin as [<- | Hin]; [| exact (IH Hrest c Hin)].
    split.
    + apply orb_prop in Hd. destruct Hd as [Hu | Hp]; [left; exact Hu |].
      right. apply Ascii.eqb_eq. exact Hp.
    + repeat split; intros ->; vm_compute in Hd; discriminate.
  - intros other H. apply encodeURIComponent_injective. exact H.
  - apply encodeURIComponent_unreserved_identity.
Qed.

Lemma fromSpotId_is_safe_witness :
  In "/checkin?contentId=spot 2&contentType=12&fromSpotId=spot%202"
    (navigations
       (handleCheckInClick (mkManager false (fun _ => None))
          spaced))
  /\ exists front,
       "/checkin?contentId=spot 2&contentType=12&fromSpotId=spot%202"
       = front +++ "&fromSpotId=" +++ "spot%202".
Proof.
  assert (H : In "/checkin?contentId=spot 2&contentType=12&fromSpotId=spot%202"
                (navigations
                   (handleCheckInClick (mkManager false (fun _ => None))
                      spaced))).
  { left. reflexivity. }
  split; [exact H |].
  exact (proj1 (fromSpotId_is_safe (mkManager false (fun _ => None))
                  spaced) _ H).
Defined.

Lemma icon_identifies_category_witness :
  In "음식" knownCategories
  /\ getCategoryIcon "음식" = getCategoryIcon "음식"
  /\ ~ In "카페" knownCategories
  /\ getCategoryIcon "카페" = IconEl MapPin "w-4 h-4".
Proof.
  assert (Hin : In "음식" knownCategories).
  { unfold knownCategories. simpl. tauto. }
  assert (Hout : ~ In "카페" knownCategories).
  { unfold knownCategories. simpl. intuition discriminate. }
  split; [exact Hin |]. split; [reflexivity |]. split; [exact Hout |].
  exact (proj2 (proj2 (icon_identifies_category "카페" "카페")) Hout).
Defined.

End SpotFacts.
